(** * Statement scoring engine (statement_scoring.py, statement_worker_pool.py)

    Shallow embedding of the batch similarity-scoring engine.  Python floats
    are modelled as exact rationals [Q]; [int(x)] is truncation toward zero.
    The external collaborators (sentence encoder, numpy/sklearn numeric
    kernels, spaCy, langdetect, nvidia-smi, torch) are fields of environment
    records, so every theorem holds for every behaviour they may have. *)

From Stdlib Require Import ZArith QArith Qabs Qminmax Lqa List String Ascii Bool Lia.
From Stdlib Require Import Sorting.Sorted Sorting.Permutation.
Import ListNotations.

Open Scope string_scope.
Open Scope list_scope.
Open Scope Z_scope.

(** ** Python-level primitives *)

(** [int(x)] on a float: truncation toward zero. *)
Definition py_int (q : Q) : Z := Z.quot (Qnum q) (Z.pos (Qden q)).

Definition qlt (a b : Q) : bool := negb (Qle_bool b a).
Definition qle (a b : Q) : bool := Qle_bool a b.

(** Result of a Python call: a value, or an exception that propagates. *)
Inductive Outcome (A : Type) : Type :=
| Ret : A -> Outcome A
| Raise : string -> Outcome A.
Arguments Ret {A} _.
Arguments Raise {A} _.

(** [os.cpu_count() or 4]: [None] and [0] both become 4. *)
Definition cpu_or_4 (c : option Z) : Z :=
  match c with
  | Some n => if n =? 0 then 4 else n
  | None => 4
  end.

(** ** Resource monitor *)

Module Workers.

(** What the host answers to the probes of the two worker-count functions. *)
Record Host := {
  sys_platform : string;
  os_cpu_count : option Z;
  has_torch : bool;
  (** [torch.cuda.is_available()]; an exception is possible. *)
  cuda_available : Outcome bool;
  (** per-device [free_mb] as collected by [get_vram_info]; a device whose
      query failed contributes an entry without [free_mb]. *)
  vram_devices : Outcome (list (option Z));
  (** [nvidia-smi --query-gpu=memory.total,memory.used]: [None] when the
      subprocess fails; one entry per output line, [None] when the line does
      not parse as two integers. *)
  nvidia_smi_lines : option (list (option (Z * Z)))
}.

Definition VRAM_PER_WORKER : Z := 200.

Definition cpu_workers (h : Host) : Z := Z.max 1 (cpu_or_4 (os_cpu_count h) - 1).

(** [get_vram_info()["total_free_mb"]]: the sum of [device.get("free_mb", 0)]. *)
Definition total_free_mb (devs : list (option Z)) : Z :=
  fold_right (fun d acc => match d with Some f => f + acc | None => acc end) 0 devs.

(** statement_worker_pool.get_optimal_worker_count *)
Definition get_optimal_worker_count (h : Host) : Z :=
  if String.eqb (sys_platform h) "darwin" then cpu_workers h
  else if negb (has_torch h) then cpu_workers h
  else
    match cuda_available h with
    | Raise _ => 2
    | Ret false => cpu_workers h
    | Ret true =>
        match vram_devices h with
        | Raise _ => 2
        | Ret devs =>
            let total_free_vram := total_free_mb devs in
            if 0 <? total_free_vram then
              let usable_vram := (inject_Z total_free_vram * (8 # 10))%Q in
              let vram_workers := Z.max 1 (py_int (usable_vram / inject_Z VRAM_PER_WORKER)%Q) in
              let worker_count := Z.min vram_workers (cpu_workers h) in
              Z.min worker_count 16
            else cpu_workers h
        end
    end.

(** Parsed [available = total - used] per line; [None] as soon as one line
    fails to parse (the [ValueError] leaves the loop). *)
Fixpoint available_vram (lines : list (option (Z * Z))) : option (list Z) :=
  match lines with
  | [] => Some []
  | None :: _ => None
  | Some (total, used) :: rest =>
      match available_vram rest with
      | Some l => Some ((total - used) :: l)
      | None => None
      end
  end.

(** statement_scoring.determine_optimal_workers *)
Definition determine_optimal_workers (h : Host) : Z :=
  if String.eqb (sys_platform h) "darwin" then cpu_workers h
  else
    match nvidia_smi_lines h with
    | None => 4
    | Some lines =>
        match available_vram lines with
        | None => 4
        | Some [] => 4
        | Some avail =>
            let total_available := fold_right Z.add 0 avail in
            let workers := py_int (inject_Z total_available * (8 # 10) / inject_Z 1024)%Q in
            Z.max 1 (Z.min 16 workers)
        end
    end.

End Workers.

(** ** Text helpers (ASCII model of Python's [str] operations) *)

Module Text.

Definition ascii_lower (c : ascii) : ascii :=
  let n := nat_of_ascii c in
  if (65 <=? n)%nat && (n <=? 90)%nat then ascii_of_nat (n + 32) else c.

(** [str.lower()] *)
Fixpoint lower (s : string) : string :=
  match s with
  | EmptyString => EmptyString
  | String c r => String (ascii_lower c) (lower r)
  end.

(** [len(s)] *)
Definition len (s : string) : Z := Z.of_nat (String.length s).

(** Regex [\w]: letters, digits, underscore; bytes of multi-byte UTF-8
    characters are taken as word characters. *)
Definition is_word_char (c : ascii) : bool :=
  let n := nat_of_ascii c in
  ((48 <=? n) && (n <=? 57))%nat || ((65 <=? n) && (n <=? 90))%nat
  || ((97 <=? n) && (n <=? 122))%nat || (n =? 95)%nat || (128 <=? n)%nat.

(** Regex [\s] / [str.split()] separators. *)
Definition is_space (c : ascii) : bool :=
  let n := nat_of_ascii c in
  (n =? 32)%nat || ((9 <=? n) && (n <=? 13))%nat.

(** Maximal runs of characters satisfying [p], left to right. *)
Fixpoint runs_aux (p : ascii -> bool) (cur : string) (s : string) : list string :=
  match s with
  | EmptyString => match cur with EmptyString => [] | _ => [cur] end
  | String c r =>
      if p c then runs_aux p (String.append cur (String c EmptyString)) r
      else match cur with
           | EmptyString => runs_aux p EmptyString r
           | _ => cur :: runs_aux p EmptyString r
           end
  end.

Definition runs (p : ascii -> bool) (s : string) : list string := runs_aux p EmptyString s.

(** [str.split()] *)
Definition py_split (s : string) : list string := runs (fun c => negb (is_space c)) s.

(** statement_scoring.simple_tokenize: [re.findall(r"\b\w+\b", text.lower())] *)
Definition simple_tokenize (text : string) : list string := runs is_word_char (lower text).

Definition mem (x : string) (l : list string) : bool := existsb (String.eqb x) l.

(** [list(dict.fromkeys(l))]: first occurrences, in order. *)
Fixpoint dedup_aux (seen : list string) (l : list string) : list string :=
  match l with
  | [] => []
  | x :: r => if mem x seen then dedup_aux seen r else x :: dedup_aux (x :: seen) r
  end.

Definition dedup (l : list string) : list string := dedup_aux [] l.

Definition count (x : string) (l : list string) : Z :=
  Z.of_nat (List.length (filter (String.eqb x) l)).

(** Stable insertion of [x] in a list sorted by decreasing key: [x] goes
    after every element whose key is not smaller. *)
Fixpoint insert_desc {A} (lt : A -> A -> bool) (x : A) (l : list A) : list A :=
  match l with
  | [] => [x]
  | y :: r => if lt y x then x :: y :: r else y :: insert_desc lt x r
  end.

(** [sorted(l, key=..., reverse=True)]: stable, decreasing. *)
Definition sort_desc {A} (lt : A -> A -> bool) (l : list A) : list A :=
  fold_left (fun acc x => insert_desc lt x acc) l [].

End Text.

Import Text.

(** ** Keyword extraction *)

Module Keywords.

Definition stopwords : list string :=
  ["und"; "mit"; "der"; "die"; "das"; "ein"; "eine"; "the"; "and"; "ist"; "zu";
   "von"; "für"; "des"; "vom"; "im"; "of"; "to"; "in"].

(** statement_scoring.extract_keywords: every step is total, so the
    [except] branch returning [[]] is never taken. *)
Definition extract_keywords (text : string) : list string :=
  let words := simple_tokenize text in
  let filtered_words :=
    filter (fun w => negb (mem w stopwords) && (2 <? len w)) words in
  (* Counter(filtered_words).most_common(15): decreasing count, ties in
     first-occurrence order *)
  let most_common :=
    sort_desc (fun a b => count a filtered_words <? count b filtered_words)
      (dedup filtered_words) in
  firstn 10 (firstn 15 most_common).

(** What spaCy yields for a text: tokens, entities and noun chunks. *)
Record Token := {
  tok_text : string;
  tok_lemma : string;
  tok_pos : string;
  tok_is_stop : bool;
  tok_is_punct : bool
}.

Record Doc := {
  doc_tokens : list Token;
  doc_ents : list string;
  doc_noun_chunks : list string
}.

(** The linguistic analyzer: whether [import spacy] succeeds, and the
    pipelines [spacy.load] returns ([None]: the load raises). *)
Record Nlp := {
  spacy_installed : bool;
  nlp_de : option (string -> Doc);
  nlp_en : option (string -> Doc)
}.

(** [spacy.load("de_core_news_sm")] with fallback to the English model for
    language "de", the English model otherwise. *)
Definition load_pipeline (a : Nlp) (language : string) : option (string -> Doc) :=
  if String.eqb language "de" then
    match nlp_de a with Some f => Some f | None => nlp_en a end
  else nlp_en a.

Definition in_pos (p : string) (tags : list string) : bool := mem p tags.

(** The primary path of extract_keywords_spacy, from the parsed document. *)
Definition spacy_keywords (doc : Doc) : list string :=
  let entities := doc_ents doc in
  let noun_chunks := doc_noun_chunks doc in
  let important_words :=
    map tok_lemma
      (filter (fun t => negb (tok_is_stop t) && negb (tok_is_punct t)
                        && (2 <? len (tok_text t))
                        && in_pos (tok_pos t) ["NOUN"; "VERB"; "ADJ"; "PROPN"])
         (doc_tokens doc)) in
  let filtered_chunks :=
    filter (fun chunk => let n := List.length (py_split chunk) in
                         (1 <=? n)%nat && (n <=? 3)%nat) noun_chunks in
  let important_words' :=
    firstn 15 (sort_desc (fun a b => len a <? len b) important_words) in
  let all_keywords := entities ++ filtered_chunks ++ important_words' in
  let keywords := map lower all_keywords in
  firstn 10 (dedup keywords).

(** statement_scoring.extract_keywords_spacy.  [import spacy] (and the other
    imports) stand before the [try]. *)
Definition extract_keywords_spacy (a : Nlp) (text : string) (language : string)
  : Outcome (list string) :=
  if negb (spacy_installed a) then Raise "ModuleNotFoundError: No module named 'spacy'"
  else
    match load_pipeline a language with
    | Some nlp => Ret (spacy_keywords (nlp (substring 0 5000 text)))
    | None => Ret (extract_keywords text)
    end.

End Keywords.

(** ** The metric computer and score combiner (statement_scoring.py) *)

Module Scoring.

Import Keywords.

Definition vec := list Q.

(** The collaborators of the scoring module.  [encode_one] is the sentence
    encoder as a fixed function of the text ([model.encode] maps it over its
    argument); [cosine] is sklearn's [cosine_similarity] (equivalently
    [1 - scipy.spatial.distance.cosine]); [l2_norm] is [np.linalg.norm];
    [tfidf_cosine s1 s2] is the cosine of the two rows of a TfidfVectorizer
    fitted on [[s1, s2]], [None] when the vectorizer raises. *)
Record Env := {
  encode_one : string -> vec;
  cosine : vec -> vec -> Q;
  l2_norm : vec -> Q;
  tfidf_cosine : string -> string -> option Q;
  nlp : Nlp;
  langdetect : string -> option string
}.

(** Every encoder call is recorded: the argument list of [model.encode]. *)
Definition Trace := list (list string).

(** Computations that may raise and that record encoder calls. *)
Definition M (A : Type) := Trace -> Outcome A * Trace.

Definition ret {A} (a : A) : M A := fun t => (Ret a, t).
Definition raise {A} (e : string) : M A := fun t => (Raise e, t).
Definition bind {A B} (m : M A) (f : A -> M B) : M B :=
  fun t => match m t with
           | (Ret a, t') => f a t'
           | (Raise e, t') => (Raise e, t')
           end.
(** [try: m  except Exception as e: h(e)] *)
Definition try_except {A} (m : M A) (h : string -> M A) : M A :=
  fun t => match m t with
           | (Raise e, t') => h e t'
           | r => r
           end.
Definition lift {A} (o : Outcome A) : M A := fun t => (o, t).

Notation "x <- m ;; k" := (bind m (fun x => k))
  (at level 61, m at next level, right associativity).

(** [model.encode(xs)] *)
Definition encode (env : Env) (xs : list string) : M (list vec) :=
  fun t => (Ret (map (encode_one env) xs), t ++ [xs]).

Fixpoint vsub (u v : vec) : vec :=
  match u, v with
  | a :: u', b :: v' => (a - b)%Q :: vsub u' v'
  | _, _ => []
  end.

(** [np.sum(np.abs(u - v))] *)
Definition l1 (u v : vec) : Q := fold_right Qplus 0%Q (map Qabs (vsub u v)).

Fixpoint vadd (u v : vec) : vec :=
  match u, v with
  | a :: u', b :: v' => (a + b)%Q :: vadd u' v'
  | [], _ => v
  | _, [] => u
  end.

Definition vscale (c : Q) (v : vec) : vec := map (Qmult c) v.

(** [np.average(es, axis=0, weights=ws)] *)
Definition wavg (ws : list Z) (es : list vec) : vec :=
  let total := fold_right Z.add 0 ws in
  vscale (/ inject_Z total)%Q
    (fold_right vadd [] (map (fun '(w, e) => vscale (inject_Z w) e) (combine ws es))).

(** The piecewise normalisation of get_similarity_score. *)
Definition normalize_weighted (w : Q) : Z :=
  if qlt w (3 # 10) then py_int (w * 40)%Q
  else if qlt w (1 # 2) then py_int (12 + (w - (3 # 10)) * 140)%Q
  else if qlt w (7 # 10) then py_int (40 + (w - (1 # 2)) * 150)%Q
  else py_int (70 + (w - (7 # 10)) * 100)%Q.

(** statement_scoring.get_similarity_score *)
Definition get_similarity_score (env : Env) (s1 s2 : string) : M Z :=
  embeddings <- encode env [s1; s2];;
  let transformer_score := cosine env (nth 0 embeddings []) (nth 1 embeddings []) in
  let tfidf_score := match tfidf_cosine env s1 s2 with Some q => q | None => 0%Q end in
  let weighted_score := (transformer_score * (3 # 10) + tfidf_score * (7 # 10))%Q in
  ret (normalize_weighted weighted_score).

(** statement_scoring.calculate_confidence *)
Definition calculate_confidence (standard tfidf euclidean manhattan : Z) : Z :=
  let metrics := map inject_Z [standard; tfidf; euclidean; manhattan] in
  let mean := (fold_right Qplus 0 metrics / 4)%Q in
  let variance := (fold_right Qplus 0 (map (fun x => (x - mean) * (x - mean)) metrics) / 4)%Q in
  let agreement := (100 / (1 + variance))%Q in
  let extremity := (inject_Z (Z.max standard (100 - standard)) / 50)%Q in
  let confidence :=
    py_int (agreement * (7 # 10) * extremity + inject_Z (100 - Z.abs (standard - tfidf)))%Q in
  Z.min 100 (Z.max 0 confidence).

Definition insurance_terms : list string := ["schaden"; "objekt"; "kosten"; "daten"; "technisch"].
Definition tech_terms : list string := ["module"; "state"; "input"; "output"].

(** [len(words_set.intersection(terms)) / len(terms)] *)
Definition term_overlap (words : list string) (terms : list string) : Q :=
  (inject_Z (Z.of_nat (List.length (filter (fun w => mem w terms) (dedup (map lower words)))))
   / inject_Z (Z.of_nat (List.length terms)))%Q.

(** Content words of get_domain_similarity: spaCy lemmas of nouns, proper
    nouns and verbs, or, when [import spacy] or both loads fail, the simple
    tokens longer than 3. *)
Definition content_words (a : Nlp) (text : string) : list string :=
  match (if spacy_installed a then load_pipeline a "de" else None) with
  | Some f =>
      map tok_lemma
        (filter (fun t => in_pos (tok_pos t) ["NOUN"; "PROPN"; "VERB"]
                          && negb (tok_is_stop t) && (2 <? len (tok_text t)))
           (doc_tokens (f (substring 0 5000 text))))
  | None => filter (fun w => 3 <? len w) (simple_tokenize text)
  end.

(** The domain score from the cosine of the two domain vectors. *)
Definition domain_score_of (domain_sim : Q) (unique_words1 unique_words2 : list string) : Z :=
  let domain_score :=
    if qlt (7 # 10) domain_sim then py_int ((domain_sim - (7 # 10)) * 333)%Q
    else py_int (domain_sim * 70)%Q in
  let domain_score :=
    if (qlt (1 # 5) (term_overlap unique_words1 insurance_terms)
        && qlt (1 # 5) (term_overlap unique_words2 insurance_terms))
       || (qlt (1 # 5) (term_overlap unique_words1 tech_terms)
           && qlt (1 # 5) (term_overlap unique_words2 tech_terms))
    then py_int (inject_Z domain_score * (7 # 10))%Q
    else domain_score in
  Z.max 0 (Z.min 100 domain_score).

(** statement_scoring.get_domain_similarity.  [list(set(words))[:20]] is
    modelled in first-occurrence order (Python's set order is arbitrary). *)
Definition get_domain_similarity (env : Env) (text1 text2 : string) : M Z :=
  let unique_words1 := firstn 20 (dedup (content_words (nlp env) text1)) in
  let unique_words2 := firstn 20 (dedup (content_words (nlp env) text2)) in
  match unique_words1, unique_words2 with
  | [], _ | _, [] => ret 0
  | _, _ =>
      embeddings1 <- encode env unique_words1;;
      embeddings2 <- encode env unique_words2;;
      let domain_vector1 := wavg (map len unique_words1) embeddings1 in
      let domain_vector2 := wavg (map len unique_words2) embeddings2 in
      ret (domain_score_of (cosine env domain_vector1 domain_vector2) unique_words1 unique_words2)
  end.

(** The dictionary returned by get_alternative_similarity_scores.  Its
    [except] branch is not reachable here: the collaborators are total. *)
Record AltScores := {
  standard_similarity : Z;
  euclidean_similarity : Z;
  manhattan_similarity : Z;
  tfidf_similarity : Z;
  domain_similarity : Z;
  alt_combined_score : Z;
  alt_confidence : Z
}.

(** The four-term blend of get_alternative_similarity_scores. *)
Definition combine_scores (standard tfidf domain euclidean : Z) : Z :=
  py_int ((1 # 2) * inject_Z standard + (3 # 10) * inject_Z tfidf
          + (1 # 10) * inject_Z domain + (1 # 10) * inject_Z euclidean)%Q.

Definition tfidf_percent (env : Env) (s1 s2 : string) : Z :=
  match tfidf_cosine env s1 s2 with Some q => py_int (q * 100)%Q | None => 0 end.

(** statement_scoring.get_alternative_similarity_scores *)
Definition get_alternative_similarity_scores (env : Env) (s1 s2 : string) : M AltScores :=
  embeddings <- encode env [s1; s2];;
  standard <- get_similarity_score env s1 s2;;
  let e0 := nth 0 embeddings [] in
  let e1 := nth 1 embeddings [] in
  let euclidean_sim := py_int (100 / (1 + l2_norm env (vsub e0 e1)))%Q in
  let manhattan_sim := py_int (100 / (1 + l1 e0 e1 * (1 # 10)))%Q in
  let tfidf_score := tfidf_percent env s1 s2 in
  domain_score <- get_domain_similarity env s1 s2;;
  ret {| standard_similarity := standard;
         euclidean_similarity := euclidean_sim;
         manhattan_similarity := manhattan_sim;
         tfidf_similarity := tfidf_score;
         domain_similarity := domain_score;
         alt_combined_score := combine_scores standard tfidf_score domain_score euclidean_sim;
         alt_confidence := calculate_confidence standard tfidf_score euclidean_sim manhattan_sim |}.

(** statement_scoring.get_interpretation *)
Definition get_interpretation (score : Z) : string :=
  if score <? 10 then "completely different"
  else if score <? 25 then "mostly different"
  else if score <? 50 then "somewhat similar"
  else if score <? 75 then "very similar"
  else "nearly identical".

End Scoring.

(** ** Per-pair comparison paths (statement_scoring.py) *)

Module Pairs.

Import Keywords Scoring.

(** A result dictionary; [None] is an absent key. *)
Record RDict := {
  r_error : option string;
  r_basic_score : option Z;
  r_combined_score : option Z;
  r_confidence : option Z;
  r_interpretation : option string;
  r_overlap_percent : option Z;
  (** "metrics": tfidf, euclidean, manhattan, domain *)
  r_metrics : option (Z * Z * Z * Z);
  (** "keywords": statement1, statement2, common *)
  r_keywords : option (list string * list string * list string)
}.

(** statement_scoring.find_common_keywords *)
Definition find_common_keywords (keywords1 keywords2 : list string) : list string :=
  let kw2_lower := map lower keywords2 in
  filter (fun kw => mem (lower kw) kw2_lower) keywords1.

(** The overlap percent of process_comparison_pair. *)
Definition pair_overlap_percent (keywords1 keywords2 common : list string) : Z :=
  match keywords1, keywords2 with
  | [], _ | _, [] => 0
  | _, _ =>
      Z.min 100
        (py_int (inject_Z (Z.of_nat (List.length common))
                 / inject_Z (Z.max (Z.of_nat (List.length keywords1))
                                   (Z.of_nat (List.length keywords2))) * 100)%Q)
  end.

(** The placeholder of process_comparison_pair's [except] branch. *)
Definition pair_error_result (e : string) : RDict :=
  {| r_error := Some e; r_basic_score := Some 0; r_combined_score := Some 0;
     r_confidence := Some 0; r_interpretation := Some "error";
     r_overlap_percent := None; r_metrics := None; r_keywords := None |}.

(** statement_scoring.process_comparison_pair.  The branch on
    [precomputed_embeddings] is [pass]: the argument is never read. *)
Definition process_comparison_pair (env : Env) (statement1 statement2 : string)
  (precomputed_embeddings : option (list (string * vec))) : M RDict :=
  try_except
    (scores <- get_alternative_similarity_scores env statement1 statement2;;
     keywords1 <- lift (extract_keywords_spacy (nlp env) statement1 "de");;
     keywords2 <- lift (extract_keywords_spacy (nlp env) statement2 "de");;
     let common_keywords := find_common_keywords keywords1 keywords2 in
     let overlap_percent := pair_overlap_percent keywords1 keywords2 common_keywords in
     let combined_score := alt_combined_score scores in
     ret {| r_error := None;
            r_basic_score := Some (standard_similarity scores);
            r_combined_score := Some combined_score;
            r_confidence := Some (alt_confidence scores);
            r_interpretation := Some (get_interpretation combined_score);
            r_overlap_percent := Some overlap_percent;
            r_metrics := Some (tfidf_similarity scores, euclidean_similarity scores,
                               manhattan_similarity scores, domain_similarity scores);
            r_keywords := Some (keywords1, keywords2, common_keywords) |})
    (fun e => ret (pair_error_result e)).

(** The local extract_keywords of process_comparison_with_embeddings:
    [re.sub(r"[^\w\s]", " ", text.lower()).split()], then the length and
    stop-word filter. *)
Definition emb_stop_words : list string :=
  ["und"; "der"; "die"; "das"; "ein"; "eine"; "zu"; "in"; "ist"; "es"; "für"; "von"; "wird"].

Fixpoint blank_non_word (s : string) : string :=
  match s with
  | EmptyString => EmptyString
  | String c r =>
      String (if is_word_char c || is_space c then c else " "%char) (blank_non_word r)
  end.

Definition emb_extract_keywords (text : string) : list string :=
  filter (fun w => (2 <? len w) && negb (mem w emb_stop_words))
    (py_split (blank_non_word (lower text))).

(** [list(set(keywords1).intersection(set(keywords2)))], in the order of
    [keywords2] (a set's order is arbitrary). *)
Definition set_intersection (keywords1 keywords2 : list string) : list string :=
  dedup (filter (fun w => mem w keywords1) keywords2).

Definition emb_overlap_percent (keywords1 keywords2 : list string) : Z :=
  match keywords1, keywords2 with
  | [], _ | _, [] => 0
  | _, _ =>
      py_int (inject_Z (Z.of_nat (List.length (set_intersection keywords1 keywords2)))
              / inject_Z (Z.of_nat (List.length keywords2)) * 100)%Q
  end.

(** The inner get_interpretation of process_comparison_with_embeddings. *)
Definition emb_interpretation (score : Z) : string :=
  if 80 <=? score then "strong_match"
  else if 60 <=? score then "moderate_match"
  else if 40 <=? score then "weak_match"
  else "no_match".

(** statement_scoring.process_comparison_with_embeddings (no encoder call). *)
Definition process_comparison_with_embeddings (env : Env) (statement1 statement2 : string)
  (embedding1 embedding2 : vec) : RDict :=
  let keywords1 := emb_extract_keywords statement1 in
  let keywords2 := emb_extract_keywords statement2 in
  let common_keywords :=
    match keywords1, keywords2 with
    | [], _ | _, [] => []
    | _, _ => set_intersection keywords1 keywords2
    end in
  let overlap_percent := emb_overlap_percent keywords1 keywords2 in
  let cosine_score := py_int (cosine env embedding1 embedding2 * 100)%Q in
  let tfidf_sim := tfidf_percent env statement1 statement2 in
  let euclidean_similarity :=
    py_int ((1 - Qmin (l2_norm env (vsub embedding1 embedding2) / 2) 1) * 100)%Q in
  let manhattan_similarity :=
    py_int ((1 - Qmin (l1 embedding1 embedding2 / 10) 1) * 100)%Q in
  let domain_sim :=
    py_int (inject_Z cosine_score * (1 # 2) + inject_Z overlap_percent * (1 # 2))%Q in
  let basic_score :=
    py_int (inject_Z cosine_score * (7 # 10) + inject_Z tfidf_sim * (3 # 10))%Q in
  let keyword_bonus := Z.min 15 (overlap_percent / 10 * 3) in
  let combined_score := Z.min 100 (basic_score + keyword_bonus) in
  let confidence :=
    py_int (Qmin 100 (50 + (inject_Z cosine_score - 50) * (7 # 10)
                      + inject_Z overlap_percent * (3 # 10)))%Q in
  {| r_error := None;
     r_basic_score := Some basic_score;
     r_combined_score := Some combined_score;
     r_confidence := Some confidence;
     r_interpretation := Some (emb_interpretation combined_score);
     r_overlap_percent := Some overlap_percent;
     r_metrics := Some (tfidf_sim, euclidean_similarity, manhattan_similarity, domain_sim);
     r_keywords := Some (keywords1, keywords2, common_keywords) |}.

End Pairs.

(** ** Single-pair entry point and batch comparison (statement_scoring.py) *)

Module Compare.

Import Keywords Scoring Pairs.

(** A Python dict as an association list; [d[k] = v] replaces in place. *)
Definition dict_set {A} (k : string) (v : A) (d : list (string * A)) : list (string * A) :=
  if existsb (fun '(k', _) => String.eqb k k') d
  then map (fun '(k', v') => if String.eqb k k' then (k', v) else (k', v')) d
  else d ++ [(k, v)].

(** [d[k]]; every key looked up below was set before. *)
Definition dict_get (k : string) (d : list (string * vec)) : vec :=
  match find (fun '(k', _) => String.eqb k k') d with
  | Some (_, v) => v
  | None => []
  end.

Fixpoint keyword_embeddings (env : Env) (keywords : list string)
  (d : list (string * vec)) : M (list (string * vec)) :=
  match keywords with
  | [] => ret d
  | k :: rest =>
      e <- encode env [k];;
      keyword_embeddings env rest (dict_set k (nth 0 e []) d)
  end.

(** statement_scoring.extract_semantic_keywords *)
Definition extract_semantic_keywords (env : Env) (text language : string)
  : M (list string * list (string * vec)) :=
  try_except
    (keywords <- lift (extract_keywords_spacy (nlp env) text language);;
     embs <- keyword_embeddings env keywords [];;
     ret (keywords, embs))
    (fun _ => ret ([], [])).

Definition semantic_skip : list string := ["und"; "mit"; "the"; "des"; "vom"; "ist"].

(** statement_scoring.find_semantic_keyword_overlap *)
Definition find_semantic_keyword_overlap (env : Env)
  (keywords1 : list string) (embeddings1 : list (string * vec))
  (keywords2 : list string) (embeddings2 : list (string * vec))
  : list (string * string * Q) :=
  let overlap_pairs :=
    flat_map (fun k1 =>
      if len k1 <? 3 then []
      else flat_map (fun k2 =>
             if len k2 <? 3 then []
             else if mem (lower k1) semantic_skip || mem (lower k2) semantic_skip then []
             else let sim := cosine env (dict_get k1 embeddings1) (dict_get k2 embeddings2) in
                  if qlt (85 # 100) sim then [(k1, k2, sim)] else [])
           keywords2)
      keywords1 in
  sort_desc (fun x y => qlt (snd x) (snd y)) overlap_pairs.

(** statement_scoring.detect_language *)
Definition detect_language (env : Env) (text : string) : string :=
  match langdetect env text with Some l => l | None => "de" end.

(** The result of compare_statements (a list of key/value pairs). *)
Record CSResult := {
  similarity_score : Z;
  cs_keywords1 : list string;
  cs_keywords2 : list string;
  keyword_overlap_percent : Z;
  common_keywords : list (string * string * Q);
  cs_combined_score : Z;
  cs_confidence : Z;
  cs_interpretation : string
}.

(** statement_scoring.compare_statements: [inl] the result, [inr] the
    [("error", str(e))] answer.  Its inline if-chain on [combined] is
    get_interpretation's. *)
Definition compare_statements (env : Env) (statement1 statement2 : string)
  : M (CSResult + string) :=
  try_except
    (score <- get_similarity_score env statement1 statement2;;
     alt_scores <- get_alternative_similarity_scores env statement1 statement2;;
     let lang1 := detect_language env statement1 in
     let lang2 := detect_language env statement2 in
     keywords_data1 <- extract_semantic_keywords env statement1 lang1;;
     keywords_data2 <- extract_semantic_keywords env statement2 lang2;;
     let keywords1 := fst keywords_data1 in
     let keywords2 := fst keywords_data2 in
     let semantic_matches :=
       find_semantic_keyword_overlap env keywords1 (snd keywords_data1)
         keywords2 (snd keywords_data2) in
     let denom := Z.max (Z.of_nat (List.length keywords1)) (Z.of_nat (List.length keywords2)) in
     if denom =? 0 then raise "ZeroDivisionError: division by zero"
     else
       let overlap_percent :=
         Z.min 100 (py_int (inject_Z (Z.of_nat (List.length semantic_matches))
                            / inject_Z denom * 100)%Q) in
       let combined := alt_combined_score alt_scores in
       ret (inl {| similarity_score := score;
                   cs_keywords1 := keywords1;
                   cs_keywords2 := keywords2;
                   keyword_overlap_percent := overlap_percent;
                   common_keywords := semantic_matches;
                   cs_combined_score := combined;
                   cs_confidence := alt_confidence alt_scores;
                   cs_interpretation := get_interpretation combined |}))
    (fun e => ret (inr e)).

Fixpoint mapM {A B} (f : A -> M B) (l : list A) : M (list B) :=
  match l with
  | [] => ret []
  | x :: r => y <- f x;; ys <- mapM f r;; ret (y :: ys)
  end.

(** [all_statements[i : i + batch_size]] for [i] in [range(0, len, batch_size)]. *)
Fixpoint chunks (fuel : nat) (batch_size : nat) (l : list string) : list (list string) :=
  match fuel with
  | O => []
  | S fuel' =>
      match l with
      | [] => []
      | _ => firstn batch_size l :: chunks fuel' batch_size (skipn batch_size l)
      end
  end.

Definition precompute_embeddings (env : Env) (all_statements : list string)
  : M (list (string * vec)) :=
  batches <- mapM (fun batch => es <- encode env batch;; ret (combine batch es))
               (chunks (List.length all_statements) 32 all_statements);;
  ret (fold_left (fun d '(s, e) => dict_set s e d) (List.concat batches) []).

(** statement_scoring.compare_all_statements.  The thread pool runs one
    process_comparison_pair per pair; the results are appended in
    completion order, modelled here as the submission order (the encoder
    calls made are the same in any order). *)
Definition compare_all_statements (env : Env) (input_statements output_statements : list string)
  : M (list (string * string * RDict)) :=
  let comparison_pairs :=
    flat_map (fun i => map (fun o => (i, o)) output_statements) input_statements in
  let all_statements := input_statements ++ output_statements in
  statement_embeddings <- precompute_embeddings env all_statements;;
  mapM (fun '(s1, s2) =>
          r <- process_comparison_pair env s1 s2 (Some statement_embeddings);;
          ret (s1, s2, r))
       comparison_pairs.

(** Number of texts equal to [s] handed to the encoder over a trace. *)
Definition encoded_count (s : string) (t : Trace) : nat :=
  fold_right Nat.add 0%nat (map (fun call => List.length (filter (String.eqb s) call)) t).

End Compare.

(** ** Batch dispatch (statement_worker_pool.py) *)

Module Pool.

Import Scoring Pairs Compare.

Record PoolEnv := {
  scoring : Env;
  HAS_TORCH : bool;
  (** the host probed by get_optimal_worker_count, which only sizes the pool *)
  host : Workers.Host;
  (** whether the worker pool's get_model() loads the encoder (it returns
      [None] when loading fails) *)
  model_loads : bool
}.

(** The unique statements of a batch, in first-seen order. *)
Definition unique_statements (statement_pairs : list (string * string)) : list string :=
  fold_left (fun all_statements '(s1, s2) =>
               let all_statements :=
                 if mem s1 all_statements then all_statements else all_statements ++ [s1] in
               if mem s2 all_statements then all_statements else all_statements ++ [s2])
            statement_pairs [].

(** [statement_to_index[s]] *)
Fixpoint index_of (s : string) (l : list string) : nat :=
  match l with
  | [] => O
  | x :: r => if String.eqb s x then O else S (index_of s r)
  end.

(** The local process_with_embeddings of process_batch_parallel; its
    [except] branch is not reachable (every statement is indexed and the
    comparison is total). [ensure_string] is the identity on strings. *)
Definition process_with_embeddings (env : Env) (all_statements : list string)
  (all_embeddings : list vec) (s1 s2 : string) : RDict :=
  let embedding1 := nth (index_of s1 all_statements) all_embeddings [] in
  let embedding2 := nth (index_of s2 all_statements) all_embeddings [] in
  process_comparison_with_embeddings env s1 s2 embedding1 embedding2.

(** statement_worker_pool.process_batch_parallel.  The future of pair [idx]
    writes slot [idx] of [results], so the list is in input order whatever
    the completion order.  A failed model load makes [model.encode] raise
    [AttributeError]. *)
Definition process_batch_parallel (p : PoolEnv) (statement_pairs : list (string * string))
  : M (list (option RDict)) :=
  let all_statements := unique_statements statement_pairs in
  if negb (model_loads p)
  then raise "AttributeError: 'NoneType' object has no attribute 'encode'"
  else
    all_embeddings <- encode (scoring p) all_statements;;
    ret (map (fun '(s1, s2) =>
                Some (process_with_embeddings (scoring p) all_statements all_embeddings s1 s2))
             statement_pairs).

(** The placeholder of process_batch_sequential's [except] branch. *)
Definition sequential_error_result (e : string) : RDict :=
  {| r_error := Some e; r_basic_score := Some 0; r_combined_score := Some 0;
     r_confidence := Some 0; r_interpretation := Some "error";
     r_overlap_percent := None; r_metrics := None; r_keywords := None |}.

(** The loop of process_batch_sequential; besides the results it returns the
    indices after which [gc.collect()] (and the CUDA cache release) ran. *)
Fixpoint sequential_loop (env : Env) (i : nat) (statement_pairs : list (string * string))
  : M (list RDict * list nat) :=
  match statement_pairs with
  | [] => ret ([], [])
  | (stmt1, stmt2) :: rest =>
      step <- try_except
                (result <- process_comparison_pair env stmt1 stmt2 None;;
                 ret (result, if Nat.eqb (Nat.modulo i 20) 19 then [i] else []))
                (fun e => ret (sequential_error_result e, []));;
      tail <- sequential_loop env (S i) rest;;
      ret (fst step :: fst tail, snd step ++ snd tail)
  end.

(** statement_worker_pool.process_batch_sequential *)
Definition process_batch_sequential (p : PoolEnv) (statement_pairs : list (string * string))
  : M (list RDict * list nat) :=
  sequential_loop (scoring p) 0 statement_pairs.

(** One formatted record of process_batch. *)
Record Formatted := {
  f_statement1 : string;
  f_statement2 : string;
  f_basic_score : Z;
  f_combined_score : Z;
  f_confidence : Z;
  f_interpretation : string;
  f_overlap_percent : Z;
  f_tfidf_similarity : Z;
  f_euclidean_similarity : Z;
  f_manhattan_similarity : Z;
  f_domain_similarity : Z;
  f_keywords1 : list string;
  f_keywords2 : list string;
  f_common_keywords : list string
}.

Definition get_or {A} (o : option A) (d : A) : A :=
  match o with Some a => a | None => d end.

Definition no_result : RDict :=
  {| r_error := Some "No result produced"; r_basic_score := Some 0;
     r_combined_score := Some 0; r_confidence := Some 0;
     r_interpretation := Some "error"; r_overlap_percent := Some 0;
     r_metrics := Some (0, 0, 0, 0); r_keywords := Some ([], [], []) |}.

Definition format_one (stmt1 stmt2 : string) (result : RDict) : Formatted :=
  let '(tfidf, euclidean, manhattan, domain) := get_or (r_metrics result) (0, 0, 0, 0) in
  let '(keywords1, keywords2, common) := get_or (r_keywords result) ([], [], []) in
  {| f_statement1 := stmt1;
     f_statement2 := stmt2;
     f_basic_score := get_or (r_basic_score result) 0;
     f_combined_score := get_or (r_combined_score result) 0;
     f_confidence := get_or (r_confidence result) 0;
     f_interpretation := get_or (r_interpretation result) "unknown";
     f_overlap_percent := get_or (r_overlap_percent result) 0;
     f_tfidf_similarity := tfidf;
     f_euclidean_similarity := euclidean;
     f_manhattan_similarity := manhattan;
     f_domain_similarity := domain;
     f_keywords1 := keywords1;
     f_keywords2 := keywords2;
     f_common_keywords := common |}.

(** The formatting loop of process_batch; [results = None] is the local
    variable [results] never assigned, and reading it ([len(results)])
    raises. *)
Fixpoint format_results (results : option (list (option RDict))) (i : nat)
  (decoded_pairs : list (string * string)) : Outcome (list Formatted) :=
  match decoded_pairs with
  | [] => Ret []
  | (stmt1, stmt2) :: rest =>
      match results with
      | None => Raise "UnboundLocalError: local variable 'results' referenced before assignment"
      | Some rs =>
          let result := match nth_error rs i with
                        | Some (Some r) => r
                        | _ => no_result
                        end in
          match format_results results (S i) rest with
          | Ret l => Ret (format_one stmt1 stmt2 result :: l)
          | Raise e => Raise e
          end
      end
  end.

(** statement_worker_pool.process_batch.  With torch the parallel path runs;
    when it raises, the handler only logs "Falling back to sequential
    processing"; without torch nothing runs.  In both cases [results] stays
    unassigned.  The outer [except] is not reachable: the inner one catches
    every [Exception]. *)
Definition process_batch (p : PoolEnv) (statement_pairs : list (string * string))
  : M (list Formatted) :=
  fun t =>
    let '(results, t') :=
      if HAS_TORCH p then
        match process_batch_parallel p statement_pairs t with
        | (Ret r, t') => (Some r, t')
        | (Raise _, t') => (None, t')
        end
      else (None, t) in
    (format_results results 0 statement_pairs, t').

(** The placeholder of worker_batch_process's per-pair [except] branch. *)
Definition worker_error_result (e : string) : RDict :=
  {| r_error := Some e; r_basic_score := Some 0; r_combined_score := Some 0;
     r_confidence := Some 0; r_interpretation := None;
     r_overlap_percent := None; r_metrics := None; r_keywords := None |}.

(** The loop of worker_batch_process: each result with its
    ["original_index"], and the indices [i] after which [gc.collect()] ran. *)
Fixpoint worker_loop (env : Env) (worker_id : Z) (i : nat) (batch : list (string * string))
  : M (list (RDict * Z) * list nat) :=
  match batch with
  | [] => ret ([], [])
  | (stmt1, stmt2) :: rest =>
      r <- try_except
             (result <- process_comparison_pair env stmt1 stmt2 None;;
              ret (result, worker_id * 1000 + Z.of_nat i))
             (fun e => ret (worker_error_result e, worker_id * 1000 + Z.of_nat i));;
      tail <- worker_loop env worker_id (S i) rest;;
      ret (r :: fst tail, (if Nat.eqb (Nat.modulo i 5) 4 then [i] else []) ++ snd tail)
  end.

(** statement_worker_pool.worker_batch_process: the list it puts on
    [result_queue] (the empty list from the outer [except]), with the
    garbage-collection points. *)
Definition worker_batch_process (env : Env) (worker_id : Z) (batch : list (string * string))
  : M (list (RDict * Z) * list nat) :=
  try_except (worker_loop env worker_id 0 batch) (fun _ => ret ([], [])).

End Pool.

(** * Concrete environments *)

Module Examples.

Import Keywords Scoring Pool.

Definition macos_32_cores : Workers.Host :=
  {| Workers.sys_platform := "darwin"; Workers.os_cpu_count := Some 32;
     Workers.has_torch := true; Workers.cuda_available := Ret false;
     Workers.vram_devices := Ret []; Workers.nvidia_smi_lines := None |}.

Definition linux_8_cores : Workers.Host :=
  {| Workers.sys_platform := "linux"; Workers.os_cpu_count := Some 8;
     Workers.has_torch := false; Workers.cuda_available := Ret false;
     Workers.vram_devices := Ret []; Workers.nvidia_smi_lines := None |}.

Definition vec_eqb (u v : vec) : bool :=
  Nat.eqb (List.length u) (List.length v)
  && forallb (fun '(a, b) => Qeq_bool a b) (combine u v).

(** A stand-in encoder and kernels: exact on equal inputs (cosine 1, norm of
    a zero difference 0), TF-IDF failing on texts without a token of two
    word characters, as sklearn's default token pattern does. *)
Definition toy_encode (s : string) : vec := [inject_Z (len s); 1%Q].

Definition toy_cosine (u v : vec) : Q := if vec_eqb u v then 1%Q else 0%Q.

Definition toy_l2_norm (v : vec) : Q := if forallb (Qeq_bool 0) v then 0%Q else 1%Q.

Definition tfidf_tokens (s : string) : list string :=
  filter (fun w => 2 <? len w) (simple_tokenize s).

Definition toy_tfidf (s1 s2 : string) : option Q :=
  match tfidf_tokens s1 ++ tfidf_tokens s2 with
  | [] => None
  | _ => Some (if String.eqb s1 s2 then 1%Q else 0%Q)
  end.

(** spaCy installed, but neither language model downloaded. *)
Definition spacy_without_models : Nlp :=
  {| spacy_installed := true; nlp_de := None; nlp_en := None |}.

(** spaCy not installed. *)
Definition no_spacy : Nlp :=
  {| spacy_installed := false; nlp_de := None; nlp_en := None |}.

Definition toy_env (a : Nlp) : Env :=
  {| encode_one := toy_encode; cosine := toy_cosine; l2_norm := toy_l2_norm;
     tfidf_cosine := toy_tfidf; nlp := a; langdetect := fun _ => None |}.

(** A statement of a claims report. *)
Definition damage_report : string := "Der Schaden wurde gemeldet.".

(** A worker pool without torch. *)
Definition pool_without_torch : PoolEnv :=
  {| scoring := toy_env spacy_without_models; HAS_TORCH := false;
     host := linux_8_cores; model_loads := true |}.

(** A worker pool with torch whose encoder loads. *)
Definition pool_with_model : PoolEnv :=
  {| scoring := toy_env spacy_without_models; HAS_TORCH := true;
     host := linux_8_cores; model_loads := true |}.

(** A worker pool with torch whose encoder fails to load. *)
Definition pool_model_fails : PoolEnv :=
  {| scoring := toy_env spacy_without_models; HAS_TORCH := true;
     host := linux_8_cores; model_loads := false |}.

End Examples.

(** * Definitions used in the statements *)

Module Props.

Import Keywords Scoring Pairs Compare.

(** The value get_similarity_score remaps: 0.3 * cosine + 0.7 * TF-IDF. *)
Definition blended_similarity (env : Env) (s1 s2 : string) : Q :=
  (cosine env (encode_one env s1) (encode_one env s2) * (3 # 10)
   + match tfidf_cosine env s1 s2 with Some q => q | None => 0 end * (7 # 10))%Q.

Definition piecewise_ranges (w : Q) (n : Z) : Prop :=
  ((w < 3 # 10)%Q -> n < 12 /\ ((0 <= w)%Q -> 0 <= n)) /\
  ((3 # 10 <= w)%Q -> (w < 1 # 2)%Q -> 12 <= n < 40) /\
  ((1 # 2 <= w)%Q -> (w < 7 # 10)%Q -> 40 <= n < 70) /\
  ((7 # 10 <= w)%Q -> (w <= 1)%Q -> 70 <= n <= 100).

(** The dictionary get_alternative_similarity_scores returns for a pair,
    given its domain score. *)
Definition alt_scores_of (env : Env) (s1 s2 : string) (d : Z) : AltScores :=
  let e0 := encode_one env s1 in
  let e1 := encode_one env s2 in
  let standard := normalize_weighted (blended_similarity env s1 s2) in
  let euclidean_sim := py_int (100 / (1 + l2_norm env (vsub e0 e1)))%Q in
  let manhattan_sim := py_int (100 / (1 + l1 e0 e1 * (1 # 10)))%Q in
  let tfidf_score := tfidf_percent env s1 s2 in
  {| standard_similarity := standard;
     euclidean_similarity := euclidean_sim;
     manhattan_similarity := manhattan_sim;
     tfidf_similarity := tfidf_score;
     domain_similarity := d;
     alt_combined_score := combine_scores standard tfidf_score d euclidean_sim;
     alt_confidence := calculate_confidence standard tfidf_score euclidean_sim manhattan_sim |}.


(** The statements of a batch of pairs, first then second of each pair. *)
Definition pair_statements (statement_pairs : list (string * string)) : list string :=
  flat_map (fun '(s1, s2) => [s1; s2]) statement_pairs.

(** The dictionary [keyword_embeddings] builds: [d[k] = encode(k)] for each
    keyword in turn. *)
Definition embed_all (env : Env) (keywords : list string) (d : list (string * vec))
  : list (string * vec) :=
  fold_left (fun d k => dict_set k (encode_one env k) d) keywords d.

(** The keywords compare_statements reads from extract_semantic_keywords:
    those of extract_keywords_spacy in the detected language, none when it
    raises. *)
Definition semantic_keywords_of (env : Env) (text : string) : list string :=
  match extract_keywords_spacy (nlp env) text (detect_language env text) with
  | Ret keywords => keywords
  | Raise _ => []
  end.



(** The ranges of the numeric kernels: the cosine and the TF-IDF cosine are
    at most 1, a norm is not negative. *)
Definition kernel_ranges (env : Env) : Prop :=
  (forall u v, cosine env u v <= 1)%Q /\
  (forall s1 s2 q, tfidf_cosine env s1 s2 = Some q -> (q <= 1)%Q) /\
  (forall v, 0 <= l2_norm env v)%Q.

(** A result of process_comparison_pair: combined score at most 100,
    confidence in [0,100], label get_interpretation of the combined score,
    or the error placeholder with zero scores and the label "error". *)
Definition pair_result_ok (r : RDict) : Prop :=
  exists c k, r_combined_score r = Some c /\ r_confidence r = Some k /\
    c <= 100 /\ 0 <= k <= 100 /\
    (r_interpretation r = Some (get_interpretation c) \/
     (r_error r <> None /\ c = 0 /\ k = 0 /\ r_interpretation r = Some "error")).

(** A result of process_comparison_with_embeddings: combined score and
    confidence at most 100, label from the four-label scheme. *)
Definition emb_result_ok (r : RDict) : Prop :=
  exists c k, r_combined_score r = Some c /\ r_confidence r = Some k /\
    c <= 100 /\ k <= 100 /\ r_interpretation r = Some (emb_interpretation c).

(** A result of compare_statements. *)
Definition cs_result_ok (o : CSResult + string) : Prop :=
  match o with
  | inl r => cs_combined_score r <= 100 /\ 0 <= cs_confidence r <= 100 /\
             cs_interpretation r = get_interpretation (cs_combined_score r)
  | inr _ => True
  end.

(** A computation that only appends to the encoder trace, with a value that
    does not depend on the calls made before it. *)
Definition appends {A} (m : M A) : Prop :=
  forall t, m t = (fst (m []), t ++ snd (m [])).

End Props.

(** * Properties *)

Module Facts.

(** ** Truncation *)

Lemma py_int_spec (q : Q) :
  let n := Qnum q in let d := Z.pos (Qden q) in
  n = d * py_int q + Z.rem n d /\
  (0 <= n -> 0 <= Z.rem n d < d) /\ (n < 0 -> - d < Z.rem n d <= 0).
Proof.
  intros n d. unfold py_int. fold n d.
  assert (Hd : 0 < d) by (unfold d; lia).
  split; [apply Z.quot_rem; lia|].
  split; intros Hn.
  - split; [apply Z.rem_nonneg; lia|].
    pose proof (Z.rem_bound_abs n d ltac:(lia)). lia.
  - split.
    + pose proof (Z.rem_bound_abs n d ltac:(lia)). lia.
    + apply Z.rem_nonpos; lia.
Qed.

Ltac trunc_setup q :=
  destruct (py_int_spec q) as (E & P & N); cbv zeta in E, P, N;
  set (d := Z.pos (Qden q)) in *; set (r := Z.rem (Qnum q) d) in *;
  set (k := py_int q) in *; assert (0 < d) by (unfold d; lia).

Lemma py_int_ge (q : Q) (z : Z) : (inject_Z z <= q)%Q -> z <= py_int q.
Proof.
  intros H. unfold Qle in H. simpl in H. trunc_setup q.
  destruct (Z.le_gt_cases z k) as [|Hk]; [assumption|exfalso].
  assert ((k + 1) * d <= z * d) by (apply Z.mul_le_mono_nonneg_r; lia).
  destruct (Z.le_gt_cases 0 (Qnum q)) as [Hn|Hn];
    [specialize (P Hn) | specialize (N Hn)]; lia.
Qed.

Lemma py_int_le (q : Q) (z : Z) : (q <= inject_Z z)%Q -> py_int q <= z.
Proof.
  intros H. unfold Qle in H. simpl in H. trunc_setup q.
  destruct (Z.le_gt_cases k z) as [|Hk]; [assumption|exfalso].
  assert ((z + 1) * d <= k * d) by (apply Z.mul_le_mono_nonneg_r; lia).
  destruct (Z.le_gt_cases 0 (Qnum q)) as [Hn|Hn];
    [specialize (P Hn) | specialize (N Hn)]; lia.
Qed.

Lemma py_int_lt (q : Q) (z : Z) : (q < inject_Z z)%Q -> 0 < z -> py_int q < z.
Proof.
  intros H Hz. unfold Qlt in H. simpl in H. trunc_setup q.
  destruct (Z.lt_ge_cases k z) as [|Hk]; [assumption|exfalso].
  assert (z * d <= k * d) by (apply Z.mul_le_mono_nonneg_r; lia).
  destruct (Z.le_gt_cases 0 (Qnum q)) as [Hn|Hn];
    [specialize (P Hn) | specialize (N Hn)]; try lia.
  assert (1 * d <= z * d) by (apply Z.mul_le_mono_nonneg_r; lia). lia.
Qed.

End Facts.

(** ** Worker count *)

Module WorkerFacts.

Import Workers Examples.

Lemma cpu_workers_pos (h : Host) : 1 <= cpu_workers h.
Proof. unfold cpu_workers. lia. Qed.

(** Claim C3 (counterexample): on a 32-core macOS host both worker-count
    functions return 31, outside [1,16]. *)
Lemma worker_count_macos_exceeds_16 :
  determine_optimal_workers macos_32_cores = 31 /\
  get_optimal_worker_count macos_32_cores = 31.
Proof. split; reflexivity. Qed.

(** Claim C3 (amended): both functions are total and return at least 1; the
    result is at most 16 unless it is the CPU-based count
    [max(1, (os.cpu_count() or 4) - 1)]. *)
Theorem worker_count_bounds (h : Host) :
  (1 <= determine_optimal_workers h /\
   (determine_optimal_workers h <= 16 \/ determine_optimal_workers h = cpu_workers h)) /\
  (1 <= get_optimal_worker_count h /\
   (get_optimal_worker_count h <= 16 \/ get_optimal_worker_count h = cpu_workers h)).
Proof.
  pose proof (cpu_workers_pos h) as Hc.
  split.
  - unfold determine_optimal_workers.
    destruct (String.eqb (sys_platform h) "darwin"); [lia|].
    destruct (nvidia_smi_lines h) as [lines|]; [|lia].
    destruct (available_vram lines) as [[|a l]|]; lia.
  - unfold get_optimal_worker_count.
    destruct (String.eqb (sys_platform h) "darwin"); [lia|].
    destruct (negb (has_torch h)); [lia|].
    destruct (cuda_available h) as [[|]|]; try lia.
    destruct (vram_devices h) as [devs|]; [|lia].
    cbv zeta. destruct (0 <? total_free_mb devs); lia.
Qed.

End WorkerFacts.

(** ** Transformer similarity *)

Module SimilarityFacts.

Import Scoring Examples Props.

Lemma qlt_true (a b : Q) : qlt a b = true <-> (a < b)%Q.
Proof.
  unfold qlt. rewrite negb_true_iff. split; intros H.
  - apply Qnot_le_lt. intros H'. apply Qle_bool_iff in H'. congruence.
  - destruct (Qle_bool b a) eqn:E; [|reflexivity].
    apply Qle_bool_iff in E. exfalso. apply (Qlt_not_le a b); assumption.
Qed.

Lemma qlt_false (a b : Q) : qlt a b = false <-> (b <= a)%Q.
Proof.
  unfold qlt. rewrite negb_false_iff. apply Qle_bool_iff.
Qed.

Lemma normalize_weighted_ranges (w : Q) : piecewise_ranges w (normalize_weighted w).
Proof.
  unfold piecewise_ranges, normalize_weighted.
  destruct (qlt w (3 # 10)) eqn:E1;
    [apply qlt_true in E1 | apply qlt_false in E1].
  - repeat split; intros; try lra.
    + apply Facts.py_int_lt; [unfold inject_Z; lra | lia].
    + apply Facts.py_int_ge. unfold inject_Z. lra.
  - destruct (qlt w (1 # 2)) eqn:E2;
      [apply qlt_true in E2 | apply qlt_false in E2].
    + repeat split; intros; try lra.
      * apply Facts.py_int_ge. unfold inject_Z. lra.
      * apply Facts.py_int_lt; [unfold inject_Z; lra | lia].
    + destruct (qlt w (7 # 10)) eqn:E3;
        [apply qlt_true in E3 | apply qlt_false in E3].
      * repeat split; intros; try lra.
        -- apply Facts.py_int_ge. unfold inject_Z. lra.
        -- apply Facts.py_int_lt; [unfold inject_Z; lra | lia].
      * repeat split; intros; try lra.
        -- apply Facts.py_int_ge. unfold inject_Z. lra.
        -- apply Facts.py_int_le. unfold inject_Z. lra.
Qed.

(** Claim C5 (counterexample): for the text "a" (no TF-IDF vocabulary) the
    two embeddings are equal, so their cosine is 1, yet the signal is 12,
    not in [70,100]. *)
Lemma similarity_of_equal_embeddings_is_12 :
  toy_cosine (toy_encode "a") (toy_encode "a") = 1%Q /\
  fst (get_similarity_score (toy_env spacy_without_models) "a" "a" []) = Ret 12.
Proof. split; vm_compute; reflexivity. Qed.

(** Claim C5 (amended): get_similarity_score encodes the pair once and
    remaps the blend [w = 0.3 * cosine + 0.7 * tfidf] (tfidf 0 when the
    vectorizer fails) piecewise: below 0.3 under 12 (and not negative when
    [w >= 0]), [0.3,0.5) into [12,40), [0.5,0.7) into [40,70), [0.7,1]
    into [70,100]. *)
Theorem get_similarity_score_remaps_blend (env : Env) (s1 s2 : string) (t : Trace) :
  get_similarity_score env s1 s2 t =
    (Ret (normalize_weighted (blended_similarity env s1 s2)), t ++ [[s1; s2]]) /\
  piecewise_ranges (blended_similarity env s1 s2)
    (normalize_weighted (blended_similarity env s1 s2)).
Proof. split; [reflexivity | apply normalize_weighted_ranges]. Qed.

End SimilarityFacts.

(** ** The trace monad *)

Module MonadFacts.

Import Keywords Scoring Pairs Compare Props.

Lemma bind_ret {A B} (m : M A) (f : A -> M B) t a t' :
  m t = (Ret a, t') -> bind m f t = f a t'.
Proof. intros H. unfold bind. rewrite H. reflexivity. Qed.

Lemma bind_raise {A B} (m : M A) (f : A -> M B) t e t' :
  m t = (Raise e, t') -> bind m f t = (Raise e, t').
Proof. intros H. unfold bind. rewrite H. reflexivity. Qed.

Lemma try_ret {A} (m : M A) h t a t' :
  m t = (Ret a, t') -> try_except m h t = (Ret a, t').
Proof. intros H. unfold try_except. rewrite H. reflexivity. Qed.

Lemma try_raise {A} (m : M A) h t e t' :
  m t = (Raise e, t') -> try_except m h t = h e t'.
Proof. intros H. unfold try_except. rewrite H. reflexivity. Qed.

Lemma ret_appends {A} (a : A) : appends (ret a).
Proof. intros t. unfold ret. simpl. rewrite app_nil_r. reflexivity. Qed.

Lemma raise_appends {A} (e : string) : appends (A := A) (raise e).
Proof. intros t. unfold raise. simpl. rewrite app_nil_r. reflexivity. Qed.

Lemma lift_appends {A} (o : Outcome A) : appends (lift o).
Proof. intros t. unfold lift. simpl. rewrite app_nil_r. reflexivity. Qed.

Lemma encode_appends (env : Env) (xs : list string) : appends (encode env xs).
Proof. intros t. reflexivity. Qed.

Lemma bind_appends {A B} (m : M A) (f : A -> M B) :
  appends m -> (forall a, appends (f a)) -> appends (bind m f).
Proof.
  intros Hm Hf t. unfold bind. rewrite (Hm t).
  destruct (m []) as [[a|e] s]; simpl.
  - rewrite (Hf a (t ++ s)), (Hf a s). simpl. rewrite app_assoc. reflexivity.
  - reflexivity.
Qed.

Lemma try_except_appends {A} (m : M A) (h : string -> M A) :
  appends m -> (forall e, appends (h e)) -> appends (try_except m h).
Proof.
  intros Hm Hh t. unfold try_except. rewrite (Hm t).
  destruct (m []) as [[a|e] s]; simpl.
  - reflexivity.
  - rewrite (Hh e (t ++ s)), (Hh e s). simpl. rewrite app_assoc. reflexivity.
Qed.

Create HintDb appends.
#[export] Hint Resolve ret_appends raise_appends lift_appends encode_appends : appends.

Ltac appends_step :=
  first [ apply bind_appends; [| intros ]
        | apply try_except_appends; [| intros ]
        | solve [ eauto with appends ] ].

Lemma get_similarity_score_appends env s1 s2 : appends (get_similarity_score env s1 s2).
Proof. unfold get_similarity_score. repeat appends_step. Qed.

Lemma get_domain_similarity_appends env s1 s2 : appends (get_domain_similarity env s1 s2).
Proof.
  unfold get_domain_similarity.
  destruct (firstn 20 (dedup (content_words (nlp env) s1)));
    destruct (firstn 20 (dedup (content_words (nlp env) s2)));
    repeat appends_step.
Qed.

#[export] Hint Resolve get_similarity_score_appends get_domain_similarity_appends : appends.

Lemma get_alternative_similarity_scores_appends env s1 s2 :
  appends (get_alternative_similarity_scores env s1 s2).
Proof. unfold get_alternative_similarity_scores. repeat appends_step. Qed.

#[export] Hint Resolve get_alternative_similarity_scores_appends : appends.

Lemma process_comparison_pair_appends env s1 s2 pre :
  appends (process_comparison_pair env s1 s2 pre).
Proof. unfold process_comparison_pair. repeat appends_step. Qed.

Lemma keyword_embeddings_appends env ks d : appends (keyword_embeddings env ks d).
Proof.
  revert d. induction ks as [|k ks IH]; intros d; simpl; repeat appends_step.
Qed.

#[export] Hint Resolve keyword_embeddings_appends : appends.

Lemma extract_semantic_keywords_appends env text language :
  appends (extract_semantic_keywords env text language).
Proof. unfold extract_semantic_keywords. repeat appends_step. Qed.

#[export] Hint Resolve extract_semantic_keywords_appends : appends.

Lemma compare_statements_appends env s1 s2 : appends (compare_statements env s1 s2).
Proof.
  unfold compare_statements. repeat appends_step.
  match goal with |- appends (if ?c then _ else _) => destruct c end;
    repeat appends_step.
Qed.

End MonadFacts.

(** ** Runs of the scoring functions *)

Module RunFacts.

Import Keywords Scoring Pairs Compare Props MonadFacts.

Lemma get_similarity_score_run env s1 s2 t :
  get_similarity_score env s1 s2 t =
    (Ret (normalize_weighted (blended_similarity env s1 s2)), t ++ [[s1; s2]]).
Proof. reflexivity. Qed.

Lemma domain_score_of_bounds dsim u1 u2 : 0 <= domain_score_of dsim u1 u2 <= 100.
Proof. unfold domain_score_of. lia. Qed.

Lemma get_domain_similarity_ret env s1 s2 :
  exists d, fst (get_domain_similarity env s1 s2 []) = Ret d /\ 0 <= d <= 100.
Proof.
  unfold get_domain_similarity.
  destruct (firstn 20 (dedup (content_words (nlp env) s1)));
    destruct (firstn 20 (dedup (content_words (nlp env) s2)));
    simpl; eexists; (split; [reflexivity|]);
    first [lia | apply domain_score_of_bounds].
Qed.

Lemma get_alternative_similarity_scores_run env s1 s2 t :
  exists d, fst (get_domain_similarity env s1 s2 []) = Ret d /\ 0 <= d <= 100 /\
  get_alternative_similarity_scores env s1 s2 t =
    (Ret (alt_scores_of env s1 s2 d),
     t ++ [[s1; s2]; [s1; s2]] ++ snd (get_domain_similarity env s1 s2 [])).
Proof.
  destruct (get_domain_similarity_ret env s1 s2) as (d & Hd & Hb).
  exists d. split; [exact Hd|]. split; [exact Hb|].
  unfold get_alternative_similarity_scores.
  erewrite bind_ret by reflexivity.
  erewrite bind_ret by apply get_similarity_score_run.
  erewrite bind_ret.
  2:{ rewrite get_domain_similarity_appends, Hd. reflexivity. }
  unfold ret. repeat rewrite <- app_assoc. reflexivity.
Qed.

End RunFacts.

(** ** Ranges and labels of the comparison results *)

Module RangeFacts.

Import Keywords Scoring Pairs Compare Props MonadFacts RunFacts SimilarityFacts Examples.

Lemma alt_scores_bounded env (Hk : kernel_ranges env) s1 s2 d (Hd : 0 <= d <= 100) :
  alt_combined_score (alt_scores_of env s1 s2 d) <= 100 /\
  0 <= alt_confidence (alt_scores_of env s1 s2 d) <= 100.
Proof.
  destruct Hk as (Hc & Ht & Hl).
  unfold alt_scores_of; cbn [alt_combined_score alt_confidence].
  split; [|unfold calculate_confidence; lia].
  set (w := blended_similarity env s1 s2).
  assert (Hw : (w <= 1)%Q).
  { unfold w, blended_similarity. specialize (Hc (encode_one env s1) (encode_one env s2)).
    destruct (tfidf_cosine env s1 s2) as [q|] eqn:E; [specialize (Ht _ _ _ E)|]; lra. }
  assert (Hs : normalize_weighted w <= 100).
  { destruct (normalize_weighted_ranges w) as (R1 & R2 & R3 & R4).
    destruct (Qlt_le_dec w (3 # 10)); [specialize (R1 q); lia|].
    destruct (Qlt_le_dec w (1 # 2)); [specialize (R2 q q0); lia|].
    destruct (Qlt_le_dec w (7 # 10)); [specialize (R3 q0 q1); lia|].
    specialize (R4 q1 Hw); lia. }
  assert (Htf : tfidf_percent env s1 s2 <= 100).
  { unfold tfidf_percent. destruct (tfidf_cosine env s1 s2) as [q|] eqn:E; [|lia].
    specialize (Ht _ _ _ E). apply Facts.py_int_le. unfold inject_Z. lra. }
  assert (Heu : py_int (100 / (1 + l2_norm env (vsub (encode_one env s1) (encode_one env s2))))%Q <= 100).
  { apply Facts.py_int_le. specialize (Hl (vsub (encode_one env s1) (encode_one env s2))).
    apply Qle_shift_div_r; unfold inject_Z; lra. }
  unfold combine_scores. apply Facts.py_int_le.
  rewrite Zle_Qle in Hs, Htf, Heu. destruct Hd as [_ Hd]. rewrite Zle_Qle in Hd.
  change (inject_Z 100) with 100%Q in *. lra.
Qed.

Lemma process_comparison_pair_ok env (Hk : kernel_ranges env) s1 s2 pre t :
  exists r, fst (process_comparison_pair env s1 s2 pre t) = Ret r /\ pair_result_ok r.
Proof.
  destruct (get_alternative_similarity_scores_run env s1 s2 t) as (d & _ & Hd & Hg).
  destruct (alt_scores_bounded env Hk s1 s2 d Hd) as [Hc Hf].
  unfold process_comparison_pair, try_except. erewrite bind_ret by exact Hg.
  destruct (extract_keywords_spacy (nlp env) s1 "de");
    [destruct (extract_keywords_spacy (nlp env) s2 "de")|];
    cbv beta iota zeta delta [bind lift ret fst]; eexists;
    (split; [reflexivity|]); do 2 eexists; (split; [reflexivity|]); (split; [reflexivity|]).
  - split; [exact Hc|]. split; [exact Hf|]. left; reflexivity.
  - split; [lia|]. split; [lia|]. right. split; [discriminate|]. auto.
  - split; [lia|]. split; [lia|]. right. split; [discriminate|]. auto.
Qed.

Lemma process_comparison_with_embeddings_ok env s1 s2 e1 e2 :
  emb_result_ok (process_comparison_with_embeddings env s1 s2 e1 e2).
Proof.
  unfold emb_result_ok, process_comparison_with_embeddings. cbv zeta.
  do 2 eexists. split; [reflexivity|]. split; [reflexivity|].
  split; [lia|]. split; [|reflexivity].
  apply Facts.py_int_le. apply Q.le_min_l.
Qed.

Lemma compare_statements_ok env (Hk : kernel_ranges env) s1 s2 t :
  exists o, fst (compare_statements env s1 s2 t) = Ret o /\ cs_result_ok o.
Proof.
  unfold compare_statements, try_except.
  erewrite bind_ret by apply get_similarity_score_run.
  destruct (get_alternative_similarity_scores_run env s1 s2 (t ++ [[s1; s2]]))
    as (d & _ & Hd & Hg).
  destruct (alt_scores_bounded env Hk s1 s2 d Hd) as [Hc Hf].
  erewrite bind_ret by exact Hg.
  unfold bind.
  destruct (extract_semantic_keywords env s1 _ _) as [[a|e] t1];
    [destruct (extract_semantic_keywords env s2 _ _) as [[b|e] t2];
     [destruct (_ =? 0)|]|]; cbv beta iota zeta delta [raise ret fst];
    eexists; (split; [reflexivity|]); cbn [cs_result_ok cs_combined_score cs_confidence cs_interpretation];
    auto.
Qed.

Lemma toy_env_kernel_ranges (a : Nlp) : kernel_ranges (toy_env a).
Proof.
  split; [|split]; cbn [cosine tfidf_cosine l2_norm toy_env].
  - intros u v. unfold toy_cosine. destruct (vec_eqb u v); lra.
  - intros s1 s2 q. unfold toy_tfidf.
    destruct (tfidf_tokens s1 ++ tfidf_tokens s2); [discriminate|].
    intros H. injection H as <-. destruct (String.eqb s1 s2); lra.
  - intros v. unfold toy_l2_norm. destruct (forallb (Qeq_bool 0) v); lra.
Qed.

(** Claim C4 (counterexample): the embeddings path labels its combined
    score with its own scheme.  Comparing "Haus" with itself there gives
    combined score 100 labelled "strong_match", while get_interpretation,
    the labelling of the other paths, names the score 100 "nearly
    identical": the labels are not drawn from one fixed set. *)
Lemma embeddings_path_uses_other_labels :
  r_combined_score (process_comparison_with_embeddings (toy_env spacy_without_models)
                      "Haus" "Haus" (toy_encode "Haus") (toy_encode "Haus")) = Some 100 /\
  r_interpretation (process_comparison_with_embeddings (toy_env spacy_without_models)
                      "Haus" "Haus" (toy_encode "Haus") (toy_encode "Haus")) = Some "strong_match" /\
  get_interpretation 100 = "nearly identical".
Proof. vm_compute. repeat split. Qed.

(** Claim C4 (amended): when the cosine and the TF-IDF cosine are at most 1
    and norms are not negative, every comparison result has combined score
    at most 100 and confidence at most 100.  process_comparison_pair and
    compare_statements always return (they catch their failures), with
    confidence in [0,100] and the label get_interpretation of the combined
    score (or the "error" placeholder with zero scores); the embeddings path
    labels its combined score with emb_interpretation (strong_match,
    moderate_match, weak_match, no_match at 80, 60, 40). *)
Theorem comparison_results_in_range (env : Env) (Hk : kernel_ranges env)
  (s1 s2 : string) (pre : option (list (string * vec))) (e1 e2 : vec) (t : Trace) :
  (exists r, fst (process_comparison_pair env s1 s2 pre t) = Ret r /\ pair_result_ok r) /\
  emb_result_ok (process_comparison_with_embeddings env s1 s2 e1 e2) /\
  (exists o, fst (compare_statements env s1 s2 t) = Ret o /\ cs_result_ok o).
Proof.
  split; [apply process_comparison_pair_ok; exact Hk|].
  split; [apply process_comparison_with_embeddings_ok|].
  apply compare_statements_ok; exact Hk.
Qed.

Lemma comparison_results_in_range_witness :
  kernel_ranges (toy_env spacy_without_models) /\
  emb_result_ok (process_comparison_with_embeddings (toy_env spacy_without_models)
                   "Haus" "Haus" (toy_encode "Haus") (toy_encode "Haus")).
Proof.
  split; [apply toy_env_kernel_ranges|].
  apply (comparison_results_in_range (toy_env spacy_without_models)
           (toy_env_kernel_ranges spacy_without_models)
           "Haus" "Haus" None (toy_encode "Haus") (toy_encode "Haus") []).
Defined.

End RangeFacts.

(** ** Keyword overlap percent *)

Module OverlapFacts.

Import Keywords Scoring Pairs Examples.

Lemma py_int_ratio (c m : Z) :
  0 <= c -> 0 < m -> py_int (inject_Z c / inject_Z m * 100)%Q = 100 * c / m.
Proof.
  intros Hc Hm.
  assert (Hm' : (0 < inject_Z m)%Q) by (change 0%Q with (inject_Z 0); rewrite <- Zlt_Qlt; exact Hm).
  assert (Hq : (inject_Z c / inject_Z m * 100 == inject_Z (100 * c) / inject_Z m)%Q).
  { rewrite inject_Z_mult. field. intros H. rewrite H in Hm'. discriminate. }
  set (z := 100 * c / m).
  assert (Hz : 0 <= z) by (apply Z.div_pos; lia).
  pose proof (Z.div_mod (100 * c) m ltac:(lia)) as Hdm.
  pose proof (Z.mod_pos_bound (100 * c) m Hm) as Hb.
  fold z in Hdm.
  apply Z.le_antisymm.
  - assert (py_int (inject_Z c / inject_Z m * 100)%Q < z + 1); [|lia].
    apply Facts.py_int_lt; [|lia]. rewrite Hq.
    apply Qlt_shift_div_r; [exact Hm'|].
    rewrite <- inject_Z_mult, <- Zlt_Qlt. nia.
  - apply Facts.py_int_ge. rewrite Hq.
    apply Qle_shift_div_l; [exact Hm'|].
    rewrite <- inject_Z_mult, <- Zle_Qle. nia.
Qed.

Lemma find_common_keywords_length k1 k2 :
  (List.length (find_common_keywords k1 k2) <= List.length k1)%nat.
Proof. unfold find_common_keywords. apply filter_length_le. Qed.

(** Claim C7 (counterexample): on the embeddings path, "Haus Auto Baum"
    against "Haus" has keywords [haus; auto; baum] and [haus], one in
    common, and overlap percent 100, not 1/max(3,1)*100 = 33. *)
Lemma embeddings_overlap_divides_by_second :
  r_keywords (process_comparison_with_embeddings (toy_env spacy_without_models)
                "Haus Auto Baum" "Haus" (toy_encode "Haus Auto Baum") (toy_encode "Haus"))
    = Some (["haus"; "auto"; "baum"], ["haus"], ["haus"]) /\
  r_overlap_percent (process_comparison_with_embeddings (toy_env spacy_without_models)
                "Haus Auto Baum" "Haus" (toy_encode "Haus Auto Baum") (toy_encode "Haus"))
    = Some 100.
Proof. vm_compute. split; reflexivity. Qed.

(** Claim C7 (amended): process_comparison_pair's overlap percent is
    floor(100 * |common| / max(|keywords1|, |keywords2|)), where common are
    the keywords of the first list found case-insensitively in the second,
    and 0 when either list is empty; process_comparison_with_embeddings
    reports floor(100 * |set(keywords1) & set(keywords2)| / |keywords2|),
    dividing by the length of the second list only, and 0 when either list
    is empty. *)
Theorem keyword_overlap_formulas (k1 k2 : list string) (env : Env) (s1 s2 : string) (e1 e2 : vec) :
  pair_overlap_percent k1 k2 (find_common_keywords k1 k2) =
    (if (List.length k1 =? 0)%nat || (List.length k2 =? 0)%nat then 0
     else 100 * Z.of_nat (List.length (find_common_keywords k1 k2))
          / Z.max (Z.of_nat (List.length k1)) (Z.of_nat (List.length k2))) /\
  emb_overlap_percent k1 k2 =
    (if (List.length k1 =? 0)%nat || (List.length k2 =? 0)%nat then 0
     else 100 * Z.of_nat (List.length (set_intersection k1 k2))
          / Z.of_nat (List.length k2)) /\
  r_overlap_percent (process_comparison_with_embeddings env s1 s2 e1 e2) =
    Some (emb_overlap_percent (emb_extract_keywords s1) (emb_extract_keywords s2)).
Proof.
  pose proof (find_common_keywords_length k1 k2) as Hc.
  split; [|split; [|reflexivity]].
  - unfold pair_overlap_percent.
    destruct k1 as [|a k1]; [reflexivity|]. destruct k2 as [|b k2]; [reflexivity|].
    cbn [List.length Nat.eqb orb].
    rewrite py_int_ratio by lia.
    apply Z.min_r. apply Z.div_le_upper_bound; [lia|].
    cbn [List.length] in Hc. nia.
  - unfold emb_overlap_percent.
    destruct k1 as [|a k1]; [reflexivity|]. destruct k2 as [|b k2]; [reflexivity|].
    cbn [List.length Nat.eqb orb].
    apply py_int_ratio; lia.
Qed.

End OverlapFacts.

(** ** The precomputed embeddings of process_comparison_pair *)

Module PrecomputedFacts.

Import Keywords Scoring Pairs Props MonadFacts RunFacts.

(** Claim C10: process_comparison_pair gives the same result and the same
    encoder calls whatever precomputed embeddings it is passed, and it always
    encodes the pair itself afresh (twice: for the transformer score and for
    the alternative scores). *)
Theorem process_comparison_pair_ignores_precomputed (env : Env) (s1 s2 : string)
  (e : list (string * vec)) (t : Trace) :
  process_comparison_pair env s1 s2 (Some e) t = process_comparison_pair env s1 s2 None t /\
  exists rest, snd (process_comparison_pair env s1 s2 None t) = t ++ [[s1; s2]; [s1; s2]] ++ rest.
Proof.
  split; [reflexivity|].
  destruct (get_alternative_similarity_scores_run env s1 s2 t) as (d & _ & _ & Hg).
  unfold process_comparison_pair, try_except. erewrite bind_ret by exact Hg.
  destruct (extract_keywords_spacy (nlp env) s1 "de");
    [destruct (extract_keywords_spacy (nlp env) s2 "de")|];
    cbv beta iota zeta delta [bind lift ret snd];
    eexists; reflexivity.
Qed.

End PrecomputedFacts.

(** ** Comparing a statement with itself *)

Module SelfFacts.

Import Keywords Scoring Pairs Compare Props MonadFacts RunFacts Examples.

Lemma keyword_embeddings_ret env ks d :
  exists D, fst (keyword_embeddings env ks d []) = Ret D.
Proof.
  revert d. induction ks as [|k ks IH]; intros d; [eexists; reflexivity|].
  simpl. unfold bind at 1. simpl. rewrite keyword_embeddings_appends. apply IH.
Qed.

Lemma extract_semantic_keywords_run env text language kws t :
  extract_keywords_spacy (nlp env) text language = Ret kws ->
  extract_semantic_keywords env text language t =
    (Ret (kws, match fst (keyword_embeddings env kws [] []) with Ret D => D | Raise _ => [] end),
     t ++ snd (keyword_embeddings env kws [] [])).
Proof.
  intros H. destruct (keyword_embeddings_ret env kws []) as [D HD].
  unfold extract_semantic_keywords, try_except.
  erewrite bind_ret by (unfold lift; rewrite H; reflexivity).
  erewrite bind_ret by (rewrite keyword_embeddings_appends, HD; reflexivity).
  rewrite HD. reflexivity.
Qed.

Lemma flat_map_length_ge {A B} (f : A -> list B) (l : list A) :
  (forall x, In x l -> (1 <= List.length (f x))%nat) ->
  (List.length l <= List.length (flat_map f l))%nat.
Proof.
  induction l as [|x l IH]; intros H; simpl; [lia|].
  rewrite length_app.
  assert (List.length l <= List.length (flat_map f l))%nat
    by (apply IH; intros y Hy; apply H; right; exact Hy).
  specialize (H x (or_introl eq_refl)). lia.
Qed.

Lemma flat_map_in_length {A B} (f : A -> list B) (l : list A) (x : A) :
  In x l -> (1 <= List.length (f x))%nat -> (1 <= List.length (flat_map f l))%nat.
Proof.
  induction l as [|y l IH]; simpl; [contradiction|].
  rewrite length_app. intros [<-|Hin] H; [lia|]. specialize (IH Hin H). lia.
Qed.

Lemma insert_desc_length {A} (lt : A -> A -> bool) (x : A) (l : list A) :
  List.length (insert_desc lt x l) = S (List.length l).
Proof.
  induction l as [|y l IH]; simpl; [reflexivity|].
  destruct (lt y x); simpl; [reflexivity|]. rewrite IH. reflexivity.
Qed.

Lemma sort_desc_length {A} (lt : A -> A -> bool) (l : list A) :
  List.length (sort_desc lt l) = List.length l.
Proof.
  unfold sort_desc.
  assert (G : forall acc, List.length (fold_left (fun acc x => insert_desc lt x acc) l acc)
                          = (List.length l + List.length acc)%nat).
  { induction l as [|x l IH]; intros acc; simpl; [reflexivity|].
    rewrite IH, insert_desc_length. lia. }
  rewrite G. simpl. lia.
Qed.

Lemma semantic_overlap_self env kws D (Hcos : forall v, cosine env v v = 1%Q)
  (Hf : forallb (fun k => (3 <=? len k) && negb (mem (lower k) semantic_skip)) kws = true) :
  (List.length kws <= List.length (find_semantic_keyword_overlap env kws D kws D))%nat.
Proof.
  unfold find_semantic_keyword_overlap. rewrite sort_desc_length.
  apply flat_map_length_ge. intros k Hin.
  rewrite forallb_forall in Hf. specialize (Hf k Hin).
  apply andb_prop in Hf as [H3 Hs].
  apply Z.leb_le in H3. apply negb_true_iff in Hs.
  replace (len k <? 3) with false by (symmetry; apply Z.ltb_ge; lia).
  apply (flat_map_in_length _ _ k Hin).
  replace (len k <? 3) with false by (symmetry; apply Z.ltb_ge; lia).
  rewrite Hs, Hcos. simpl. lia.
Qed.

Lemma vec_eqb_refl (v : vec) : vec_eqb v v = true.
Proof.
  unfold vec_eqb. rewrite Nat.eqb_refl. simpl.
  induction v as [|x v IH]; [reflexivity|]. simpl.
  rewrite IH, andb_true_r. apply Qeq_bool_iff. reflexivity.
Qed.

Lemma toy_cosine_refl (v : vec) : toy_cosine v v = 1%Q.
Proof. unfold toy_cosine. rewrite vec_eqb_refl. reflexivity. Qed.

Lemma toy_l2_norm_zero (v : vec) : toy_l2_norm (vsub v v) = 0%Q.
Proof.
  unfold toy_l2_norm.
  replace (forallb (Qeq_bool 0) (vsub v v)) with true; [reflexivity|].
  induction v as [|x v IH]; [reflexivity|]. simpl.
  rewrite <- IH, andb_true_r. symmetry. apply Qeq_bool_iff. ring.
Qed.

(** Claim C9 (counterexample): with the fixed stand-in encoder (equal texts
    get equal vectors, cosine 1, TF-IDF 1) and spaCy without its models,
    comparing "gut" with itself gives combined score 90, below 95: the
    domain score is 0 because "gut" has no content word longer than three
    characters. *)
Lemma self_comparison_gut_scores_90 :
  toy_cosine (toy_encode "gut") (toy_encode "gut") = 1%Q /\
  toy_tfidf "gut" "gut" = Some 1%Q /\
  match fst (compare_statements (toy_env spacy_without_models) "gut" "gut" []) with
  | Ret (inl r) => (cs_combined_score r, cs_interpretation r, keyword_overlap_percent r)
  | _ => (0, "none", 0)
  end = (90, "nearly identical", 100).
Proof. vm_compute. repeat split. Qed.

(** Claim C9 (amended): when the encoder and the kernels are exact on equal
    inputs (cosine of a vector with itself 1, norm of a zero difference 0,
    TF-IDF cosine of the statement with itself 1) and the statement has a
    non-empty keyword list, comparing it with itself returns a result with
    combined score between 90 and 100 (90 plus a tenth of the domain score)
    and the top label "nearly identical"; its overlap percent is 100 when
    every keyword has at least three characters and is not a skipped word. *)
Theorem self_comparison_scores (env : Env) (a : string) (kws : list string) (t : Trace)
  (Hcos : forall v, cosine env v v = 1%Q)
  (Hl2 : forall v, l2_norm env (vsub v v) = 0%Q)
  (Htf : tfidf_cosine env a a = Some 1%Q)
  (Hkw : extract_keywords_spacy (nlp env) a (detect_language env a) = Ret kws)
  (Hne : kws <> []) :
  exists r, fst (compare_statements env a a t) = Ret (inl r) /\
    90 <= cs_combined_score r <= 100 /\
    cs_interpretation r = "nearly identical" /\
    (forallb (fun k => (3 <=? len k) && negb (mem (lower k) semantic_skip)) kws = true ->
     keyword_overlap_percent r = 100).
Proof.
  assert (Hn : (0 < List.length kws)%nat) by (destruct kws; [contradiction|simpl; lia]).
  unfold compare_statements, try_except.
  erewrite bind_ret by apply get_similarity_score_run.
  destruct (get_alternative_similarity_scores_run env a a (t ++ [[a; a]]))
    as (d & _ & Hd & Hg).
  erewrite bind_ret by exact Hg.
  erewrite bind_ret by (apply extract_semantic_keywords_run; exact Hkw).
  erewrite bind_ret by (apply extract_semantic_keywords_run; exact Hkw).
  cbn [fst snd]. rewrite Z.max_id.
  replace (Z.of_nat (List.length kws) =? 0) with false by (symmetry; apply Z.eqb_neq; lia).
  set (D := match fst (keyword_embeddings env kws [] []) with Ret D => D | Raise _ => [] end).
  assert (Hc : 90 <= alt_combined_score (alt_scores_of env a a d) <= 100).
  { assert (Hstd : normalize_weighted (blended_similarity env a a) = 100)
      by (unfold blended_similarity; rewrite Hcos, Htf; reflexivity).
    assert (Htp : tfidf_percent env a a = 100) by (unfold tfidf_percent; rewrite Htf; reflexivity).
    unfold alt_scores_of. cbn [alt_combined_score]. rewrite Hstd, Htp, Hl2.
    unfold combine_scores. destruct Hd as [Hd0 Hd1]. rewrite Zle_Qle in Hd0, Hd1.
    change (inject_Z 0) with 0%Q in Hd0. change (inject_Z 100) with 100%Q in Hd1.
    split; [apply Facts.py_int_ge | apply Facts.py_int_le];
      change (inject_Z 100) with 100%Q; change (inject_Z 90) with 90%Q;
      change (py_int (100 / (1 + 0))) with 100; change (inject_Z 100) with 100%Q; lra. }
  cbv beta iota zeta delta [ret fst]. eexists. split; [reflexivity|].
  cbn [cs_combined_score cs_interpretation keyword_overlap_percent].
  split; [exact Hc|]. split.
  - unfold get_interpretation.
    repeat match goal with |- context [?x <? ?y] => destruct (Z.ltb_spec x y); [lia|] end.
    reflexivity.
  - intros Hf. pose proof (semantic_overlap_self env kws D Hcos Hf) as Hm.
    rewrite OverlapFacts.py_int_ratio by lia.
    apply Z.min_l. apply Z.div_le_lower_bound; lia.
Qed.

Lemma self_comparison_scores_witness :
  tfidf_cosine (toy_env spacy_without_models) damage_report damage_report = Some 1%Q /\
  exists r, fst (compare_statements (toy_env spacy_without_models) damage_report damage_report [])
              = Ret (inl r) /\
    90 <= cs_combined_score r <= 100 /\
    cs_interpretation r = "nearly identical" /\
    (forallb (fun k => (3 <=? len k) && negb (mem (lower k) semantic_skip))
       (extract_keywords damage_report) = true ->
     keyword_overlap_percent r = 100).
Proof.
  split; [vm_compute; reflexivity|].
  apply (self_comparison_scores (toy_env spacy_without_models) damage_report
           (extract_keywords damage_report) []).
  - exact toy_cosine_refl.
  - exact toy_l2_norm_zero.
  - vm_compute. reflexivity.
  - vm_compute. reflexivity.
  - vm_compute. discriminate.
Defined.

End SelfFacts.

(** ** Batch entry points *)

Module BatchFacts.

Import Keywords Scoring Pairs Compare Pool MonadFacts RunFacts Examples.

Lemma process_comparison_pair_returns env s1 s2 pre t :
  exists r t', process_comparison_pair env s1 s2 pre t = (Ret r, t').
Proof.
  unfold process_comparison_pair, try_except.
  match goal with |- context [let (o, t') := ?m t in _] => destruct (m t) as [[r|e] t1] end;
    do 2 eexists; reflexivity.
Qed.

Lemma sequential_loop_run env i pairs t :
  exists rs t', sequential_loop env i pairs t =
    (Ret (rs, filter (fun j => Nat.eqb (Nat.modulo j 20) 19) (seq i (List.length pairs))), t') /\
    List.length rs = List.length pairs.
Proof.
  revert i t. induction pairs as [|[s1 s2] rest IH]; intros i t.
  - do 2 eexists. split; reflexivity.
  - destruct (process_comparison_pair_returns env s1 s2 None t) as (r & t1 & Hp).
    cbn [sequential_loop].
    erewrite bind_ret.
    2:{ apply try_ret. erewrite bind_ret by exact Hp. reflexivity. }
    destruct (IH (S i) t1) as (rs & t2 & Hl & Hn).
    erewrite bind_ret by exact Hl.
    exists (r :: rs), t2. split; [|simpl; rewrite Hn; reflexivity].
    change (seq i (List.length ((s1, s2) :: rest))) with (i :: seq (S i) (List.length rest)).
    unfold ret. destruct (Nat.eqb (Nat.modulo i 20) 19) eqn:E;
      cbn [filter fst snd app]; rewrite E; reflexivity.
Qed.

Lemma format_results_some (rs : list (option RDict)) (i : nat) (pairs : list (string * string)) :
  exists l, format_results (Some rs) i pairs = Ret l /\
            map (fun f => (f_statement1 f, f_statement2 f)) l = pairs.
Proof.
  revert i. induction pairs as [|[s1 s2] rest IH]; intros i; [exists []; split; reflexivity|].
  destruct (IH (S i)) as (l & Hl & Hm).
  cbn [format_results]. rewrite Hl.
  eexists. split; [reflexivity|]. cbn [map]. rewrite Hm. f_equal.
  unfold format_one.
  destruct (get_or (r_metrics _) _) as [[[? ?] ?] ?].
  destruct (get_or (r_keywords _) _) as [[? ?] ?].
  reflexivity.
Qed.

(** Claim C1: process_batch is not total.  Without torch, on the one-pair
    batch [("a", "b")], it raises UnboundLocalError past its boundary
    instead of returning one placeholder: the variable [results] is never
    assigned on that path.  (With torch and a loaded model it does return
    one record per pair, in input order.) *)
Theorem process_batch_without_torch_raises :
  fst (process_batch pool_without_torch [("a", "b")] []) =
    Raise "UnboundLocalError: local variable 'results' referenced before assignment" /\
  forall pairs t, exists l, fst (process_batch pool_with_model pairs t) = Ret l /\
    map (fun f => (f_statement1 f, f_statement2 f)) l = pairs.
Proof.
  split; [reflexivity|]. intros pairs t.
  unfold process_batch. cbn [HAS_TORCH pool_with_model].
  unfold process_batch_parallel. cbn [model_loads negb].
  unfold bind, encode, ret. cbn [fst].
  apply format_results_some.
Qed.

(** Claim C2: the encoder is not called once per distinct statement.
    compare_all_statements on inputs ["x"; "y"] and outputs ["z"] hands
    "z" to the encoder 5 times: once while precomputing, then twice for
    each of the two pairs, since process_comparison_pair ignores the
    precomputed embeddings.  (process_batch_parallel, on the same two
    pairs, encodes "z" once.) *)
Theorem compare_all_statements_reencodes :
  encoded_count "z"
    (snd (compare_all_statements (toy_env spacy_without_models) ["x"; "y"] ["z"] [])) = 5%nat /\
  encoded_count "z"
    (snd (process_batch_parallel pool_with_model [("x", "z"); ("y", "z")] [])) = 1%nat.
Proof. vm_compute. split; reflexivity. Qed.

(** Claim C6: when torch is missing or the parallel setup fails (the model
    does not load), process_batch never runs the sequential path: on any
    non-empty batch it raises UnboundLocalError.  The sequential path itself
    would return one result per pair and collect garbage after the pairs of
    index 19, 39, 59, ... *)
Theorem process_batch_never_falls_back (p : PoolEnv) (pairs : list (string * string))
  (t : Trace) (Hfail : HAS_TORCH p = false \/ model_loads p = false) (Hne : pairs <> []) :
  fst (process_batch p pairs t) =
    Raise "UnboundLocalError: local variable 'results' referenced before assignment" /\
  exists rs t', process_batch_sequential p pairs t =
    (Ret (rs, filter (fun j => Nat.eqb (Nat.modulo j 20) 19) (seq 0 (List.length pairs))), t') /\
    List.length rs = List.length pairs.
Proof.
  split; [|apply sequential_loop_run].
  destruct pairs as [|[s1 s2] rest]; [contradiction|].
  unfold process_batch.
  destruct (HAS_TORCH p) eqn:Ht; [|reflexivity].
  destruct Hfail as [Hf|Hm]; [discriminate|].
  unfold process_batch_parallel. rewrite Hm. reflexivity.
Qed.

Lemma process_batch_never_falls_back_witness :
  fst (process_batch pool_model_fails [("a", "b")] []) =
    Raise "UnboundLocalError: local variable 'results' referenced before assignment".
Proof.
  apply (process_batch_never_falls_back pool_model_fails [("a", "b")] []).
  - right. reflexivity.
  - discriminate.
Defined.

(** Claim C8: extract_keywords_spacy raises when spaCy is not installed,
    on any text (here "Der Schaden wurde gemeldet."): [import spacy] stands
    before its [try].  Its caller extract_semantic_keywords catches the
    error and returns no keywords, and get_domain_similarity, which imports
    spaCy inside its [try], returns a score. *)
Theorem extract_keywords_spacy_raises_without_spacy :
  extract_keywords_spacy no_spacy damage_report "de" =
    Raise "ModuleNotFoundError: No module named 'spacy'" /\
  fst (extract_semantic_keywords (toy_env no_spacy) damage_report "de" []) = Ret ([], []) /\
  exists d, fst (get_domain_similarity (toy_env no_spacy) damage_report damage_report []) = Ret d.
Proof.
  split; [reflexivity|]. split; [reflexivity|].
  destruct (get_domain_similarity_ret (toy_env no_spacy) damage_report damage_report)
    as (d & Hd & _).
  exists d. exact Hd.
Qed.

End BatchFacts.

(** ** Generic facts on the list helpers *)

Module ListFacts.

Import Text.

Lemma mem_In (x : string) (l : list string) : mem x l = true <-> In x l.
Proof.
  unfold mem. rewrite existsb_exists. split.
  - intros (y & Hy & E). apply String.eqb_eq in E. subst. exact Hy.
  - intros H. exists x. split; [exact H | apply String.eqb_refl].
Qed.

Lemma dedup_aux_spec (seen l : list string) :
  NoDup (dedup_aux seen l) /\
  (forall x, In x (dedup_aux seen l) <-> In x l /\ ~ In x seen).
Proof.
  revert seen. induction l as [|y l IH]; intros seen; simpl.
  - split; [constructor|]. intros x. tauto.
  - destruct (mem y seen) eqn:E.
    + apply mem_In in E. destruct (IH seen) as [Hn Hi]. split; [exact Hn|].
      intros x. rewrite Hi. split; [tauto|].
      intros [[<-|H] Hs]; [contradiction|tauto].
    + destruct (IH (y :: seen)) as [Hn Hi]. split.
      * constructor; [|exact Hn]. rewrite Hi. simpl. tauto.
      * intros x. simpl. rewrite Hi. simpl.
        assert (~ In y seen) by (intros H; apply mem_In in H; congruence).
        split.
        -- intros [<-|[H1 H2]]; tauto.
        -- intros [[<-|H1] H2]; [left; reflexivity|].
           destruct (String.eqb_spec y x); [left; assumption|right; tauto].
Qed.

Lemma dedup_NoDup (l : list string) : NoDup (dedup l).
Proof. apply dedup_aux_spec. Qed.

Lemma dedup_In (l : list string) (x : string) : In x (dedup l) <-> In x l.
Proof. unfold dedup. rewrite (proj2 (dedup_aux_spec [] l)). simpl. tauto. Qed.







Section Sorting.

Variable A : Type.
Variable lt : A -> A -> bool.
Hypothesis lt_asym : forall a b, lt a b = true -> lt b a = false.



End Sorting.

End ListFacts.

(** ** Keyword extraction *)

Module KeywordFacts.

Import Text Keywords Props ListFacts.






End KeywordFacts.

(** ** Semantic keyword overlap *)

Module SemanticFacts.

Import Text Scoring Compare ListFacts.



End SemanticFacts.

(** ** Monotonicity of the transformer score, and confidence *)

Module ScoreFacts.

Import Scoring Props SimilarityFacts.

Lemma py_int_floor (q : Q) : (0 <= q)%Q -> (inject_Z (py_int q) <= q)%Q.
Proof.
  intros H. unfold Qle in *. simpl in *. Facts.trunc_setup q.
  specialize (P ltac:(lia)). nia.
Qed.

Lemma py_int_ceil (q : Q) : (q <= 0)%Q -> (q <= inject_Z (py_int q))%Q.
Proof.
  intros H. unfold Qle in *. simpl in *. Facts.trunc_setup q.
  destruct (Z.eq_dec (Qnum q) 0) as [Hz|Hz].
  - rewrite Hz in E |- *. assert (k = 0) by nia. subst k. lia.
  - specialize (N ltac:(lia)). nia.
Qed.

Lemma py_int_mono (q1 q2 : Q) : (q1 <= q2)%Q -> py_int q1 <= py_int q2.
Proof.
  intros H.
  destruct (Qlt_le_dec q1 0) as [H1|H1].
  - destruct (Qlt_le_dec q2 0) as [H2|H2].
    + apply Facts.py_int_le. apply (Qle_trans _ q2); [exact H|].
      apply py_int_ceil. apply Qlt_le_weak. exact H2.
    + transitivity 0.
      * apply Facts.py_int_le. apply Qlt_le_weak. exact H1.
      * apply Facts.py_int_ge. exact H2.
  - apply Facts.py_int_ge. apply (Qle_trans _ q1); [|exact H].
    apply py_int_floor. exact H1.
Qed.

(** The remap of get_similarity_score is non-decreasing: a larger blended
    similarity never yields a smaller score. *)
Theorem normalize_weighted_monotone (w1 w2 : Q) (H : (w1 <= w2)%Q) :
  normalize_weighted w1 <= normalize_weighted w2.
Proof.
  unfold normalize_weighted.
  destruct (qlt w1 (3 # 10)) eqn:A1; [apply qlt_true in A1|apply qlt_false in A1];
  destruct (qlt w2 (3 # 10)) eqn:B1; [apply qlt_true in B1|apply qlt_false in B1|
                                      apply qlt_true in B1|apply qlt_false in B1];
  try (apply py_int_mono; lra);
  try (exfalso; lra);
  destruct (qlt w1 (1 # 2)) eqn:A2; try (apply qlt_true in A2); try (apply qlt_false in A2);
  destruct (qlt w2 (1 # 2)) eqn:B2; try (apply qlt_true in B2); try (apply qlt_false in B2);
  try (apply py_int_mono; lra);
  try (exfalso; lra);
  destruct (qlt w1 (7 # 10)) eqn:A3; try (apply qlt_true in A3); try (apply qlt_false in A3);
  destruct (qlt w2 (7 # 10)) eqn:B3; try (apply qlt_true in B3); try (apply qlt_false in B3);
  try (apply py_int_mono; lra);
  exfalso; lra.
Qed.

Lemma normalize_weighted_monotone_witness :
  (1 # 4 <= 3 # 5)%Q /\ normalize_weighted (1 # 4) <= normalize_weighted (3 # 5).
Proof.
  split; [unfold Qle; simpl; lia|].
  apply normalize_weighted_monotone. unfold Qle; simpl; lia.
Defined.

Lemma Qsquare_nonneg (x : Q) : (0 <= x * x)%Q.
Proof. nra. Qed.

(** calculate_confidence is at least 100 minus the gap between the standard
    and TF-IDF scores (clamped to [0,100]), whatever the other metrics are;
    in particular it is 100 whenever the standard and TF-IDF scores agree. *)
Theorem calculate_confidence_gap (standard tfidf euclidean manhattan : Z) :
  Z.min 100 (Z.max 0 (100 - Z.abs (standard - tfidf)))
    <= calculate_confidence standard tfidf euclidean manhattan <= 100 /\
  calculate_confidence standard standard euclidean manhattan = 100.
Proof.
  assert (G : forall s t, Z.min 100 (Z.max 0 (100 - Z.abs (s - t)))
                            <= calculate_confidence s t euclidean manhattan <= 100).
  { intros s t. unfold calculate_confidence. cbv zeta.
    set (mean := (fold_right Qplus 0 (map inject_Z [s; t; euclidean; manhattan]) / 4)%Q).
    set (variance := (fold_right Qplus 0
                        (map (fun x => (x - mean) * (x - mean))
                           (map inject_Z [s; t; euclidean; manhattan])) / 4)%Q).
    assert (Hv : (0 <= variance)%Q).
    { unfold variance. simpl.
      pose proof (Qsquare_nonneg (inject_Z s - mean)).
      pose proof (Qsquare_nonneg (inject_Z t - mean)).
      pose proof (Qsquare_nonneg (inject_Z euclidean - mean)).
      pose proof (Qsquare_nonneg (inject_Z manhattan - mean)).
      apply Qle_shift_div_l; [reflexivity|]. lra. }
    assert (Ha : (0 <= 100 / (1 + variance))%Q).
    { apply Qle_shift_div_l; lra. }
    assert (He : (0 <= inject_Z (Z.max s (100 - s)) / 50)%Q).
    { apply Qle_shift_div_l; [reflexivity|].
      assert (0 <= Z.max s (100 - s)) by lia. rewrite Zle_Qle in H.
      change (inject_Z 0) with 0%Q in H. lra. }
    assert (Hx : (0 <= 100 / (1 + variance) * (7 # 10) * (inject_Z (Z.max s (100 - s)) / 50))%Q).
    { apply Qmult_le_0_compat; [|exact He]. apply Qmult_le_0_compat; [exact Ha|]. discriminate. }
    assert (100 - Z.abs (s - t) <=
            py_int (100 / (1 + variance) * (7 # 10) * (inject_Z (Z.max s (100 - s)) / 50)
                    + inject_Z (100 - Z.abs (s - t)))%Q).
    { apply Facts.py_int_ge. lra. }
    lia. }
  split; [apply G|].
  pose proof (G standard standard). rewrite Z.sub_diag in H. simpl in H. lia.
Qed.

End ScoreFacts.

(** ** The unique statements of the parallel batch *)

Module UniqueFacts.

Import Text Scoring Pairs Pool Props MonadFacts ListFacts.

Lemma dedup_aux_seen_ext (seen1 seen2 l : list string) :
  (forall x, In x seen1 <-> In x seen2) -> dedup_aux seen1 l = dedup_aux seen2 l.
Proof.
  revert seen1 seen2. induction l as [|y l IH]; intros seen1 seen2 H; simpl; [reflexivity|].
  assert (E : mem y seen1 = mem y seen2).
  { destruct (mem y seen1) eqn:E1, (mem y seen2) eqn:E2; try reflexivity;
      rewrite ?mem_In in E1, E2; exfalso.
    - apply mem_In in E1. apply H in E1. apply mem_In in E1. congruence.
    - apply mem_In in E2. apply H in E2. apply mem_In in E2. congruence. }
  rewrite E. destruct (mem y seen2).
  - apply IH. exact H.
  - f_equal. apply IH. intros x. simpl. rewrite H. tauto.
Qed.

Lemma unique_statements_fold (ps : list (string * string)) (acc : list string) :
  fold_left (fun all_statements '(s1, s2) =>
               let all_statements :=
                 if mem s1 all_statements then all_statements else all_statements ++ [s1] in
               if mem s2 all_statements then all_statements else all_statements ++ [s2])
            ps acc = acc ++ dedup_aux acc (pair_statements ps).
Proof.
  revert acc. induction ps as [|[s1 s2] ps IH]; intros acc.
  - simpl. rewrite app_nil_r. reflexivity.
  - change (pair_statements ((s1, s2) :: ps)) with (s1 :: s2 :: pair_statements ps).
    cbn [fold_left]. rewrite IH. cbn [dedup_aux].
    assert (Hm : mem s2 (acc ++ [s1]) = mem s2 (s1 :: acc)).
    { unfold mem. rewrite existsb_app. simpl. rewrite orb_false_r, orb_comm. reflexivity. }
    assert (Ext : forall l a b, (forall x, In x a <-> In x b) ->
                  dedup_aux a l = dedup_aux b l) by (intros; apply dedup_aux_seen_ext; assumption).
    assert (P : forall a b, (forall x, In x a <-> In x b) ->
                dedup_aux a (pair_statements ps) = dedup_aux b (pair_statements ps))
      by (intros; apply Ext; assumption).
    destruct (mem s1 acc) eqn:E1.
    + destruct (mem s2 acc) eqn:E2; [reflexivity|].
      rewrite <- app_assoc. simpl. rewrite (P (acc ++ [s2]) (s2 :: acc)); [reflexivity|].
      intros x; rewrite in_app_iff; simpl; tauto.
    + rewrite Hm. destruct (mem s2 (s1 :: acc)) eqn:E2.
      * rewrite <- app_assoc. simpl. rewrite (P (acc ++ [s1]) (s1 :: acc)); [reflexivity|].
        intros x; rewrite in_app_iff; simpl; tauto.
      * rewrite <- !app_assoc. simpl.
        rewrite (P (acc ++ [s1; s2]) (s2 :: s1 :: acc)); [reflexivity|].
        intros x; rewrite in_app_iff; simpl; tauto.
Qed.

Lemma unique_statements_dedup (statement_pairs : list (string * string)) :
  (unique_statements statement_pairs = dedup (pair_statements statement_pairs))%list.
Proof. unfold unique_statements. rewrite unique_statements_fold. reflexivity. Qed.

Lemma index_of_nth (s : string) (l : list string) (d : string) :
  In s l -> (Pool.index_of s l < List.length l)%nat /\ nth (Pool.index_of s l) l d = s.
Proof.
  induction l as [|x l IH]; simpl; [contradiction|].
  destruct (String.eqb_spec s x) as [->|Hne].
  - intros _. split; [lia|reflexivity].
  - intros [->|H]; [contradiction|]. destruct (IH H). split; [lia|assumption].
Qed.

(** process_batch_parallel's list of unique statements is the statements of
    the pairs (first, then second of each pair) with repeats removed, first
    occurrences kept; statement_to_index maps each of them to its position. *)
Theorem unique_statements_index (statement_pairs : list (string * string)) :
  (unique_statements statement_pairs = dedup (pair_statements statement_pairs))%list /\
  NoDup (unique_statements statement_pairs) /\
  (forall s, In s (unique_statements statement_pairs) <-> In s (pair_statements statement_pairs)) /\
  (forall s d, In s (pair_statements statement_pairs) ->
     nth (index_of s (unique_statements statement_pairs)) (unique_statements statement_pairs) d = s).
Proof.
  rewrite unique_statements_dedup.
  split; [reflexivity|]. split; [apply dedup_NoDup|]. split; [apply dedup_In|].
  intros s d H. apply index_of_nth. apply dedup_In. exact H.
Qed.

End UniqueFacts.

(** ** The parallel batch with shared embeddings *)

Module ParallelFacts.

Import Scoring Pairs Pool Props Examples ListFacts UniqueFacts.

Lemma pair_statements_In (statement_pairs : list (string * string)) (s1 s2 : string) :
  In (s1, s2) statement_pairs ->
  In s1 (pair_statements statement_pairs) /\ In s2 (pair_statements statement_pairs).
Proof.
  intros H. unfold pair_statements. rewrite !in_flat_map.
  split; exists (s1, s2); simpl; auto.
Qed.

Lemma nth_index_of_map (f : string -> vec) (s : string) (l : list string) :
  In s l -> nth (index_of s l) (map f l) [] = f s.
Proof.
  intros H. destruct (index_of_nth s l s H) as [Hlt Hn].
  rewrite (nth_indep (map f l) [] (f s)) by (rewrite length_map; exact Hlt).
  rewrite map_nth, Hn. reflexivity.
Qed.

(** When the model loads, process_batch_parallel calls the encoder exactly
    once, on the unique statements of the batch, and the result of every
    pair is the comparison of its two statements with their own
    embeddings, in input order. *)
Theorem process_batch_parallel_shared_embeddings (p : PoolEnv)
  (statement_pairs : list (string * string)) (t : Trace)
  (H : model_loads p = true) :
  process_batch_parallel p statement_pairs t =
  (Ret (map (fun '(s1, s2) =>
               Some (process_comparison_with_embeddings (scoring p) s1 s2
                       (encode_one (scoring p) s1) (encode_one (scoring p) s2)))
            statement_pairs),
   t ++ [unique_statements statement_pairs]).
Proof.
  unfold process_batch_parallel. rewrite H. cbn [negb].
  unfold bind, encode, ret. f_equal. f_equal.
  apply map_ext_in. intros [s1 s2] Hin.
  destruct (pair_statements_In _ _ _ Hin) as [H1 H2].
  rewrite <- dedup_In, <- unique_statements_dedup in H1, H2.
  unfold process_with_embeddings.
  rewrite !nth_index_of_map by assumption. reflexivity.
Qed.

Lemma process_batch_parallel_shared_embeddings_witness :
  model_loads pool_with_model = true /\
  process_batch_parallel pool_with_model [(damage_report, "Gut."); ("Gut.", damage_report)] [] =
  (Ret (map (fun '(s1, s2) =>
               Some (process_comparison_with_embeddings (scoring pool_with_model) s1 s2
                       (encode_one (scoring pool_with_model) s1)
                       (encode_one (scoring pool_with_model) s2)))
            [(damage_report, "Gut."); ("Gut.", damage_report)]),
   [] ++ [unique_statements [(damage_report, "Gut."); ("Gut.", damage_report)]]).
Proof.
  split; [reflexivity|].
  apply process_batch_parallel_shared_embeddings. reflexivity.
Defined.

End ParallelFacts.

(** ** Worker processes *)

Module WorkerPoolFacts.

Import Scoring Pairs Pool Examples.

Lemma worker_loop_run (env : Env) (worker_id : Z) (batch : list (string * string)) :
  forall (i : nat) (t : Trace), exists rs t',
    worker_loop env worker_id i batch t =
      (Ret (rs, filter (fun j => Nat.eqb (Nat.modulo j 5) 4) (seq i (List.length batch))), t') /\
    map snd rs = map (fun j => worker_id * 1000 + Z.of_nat j) (seq i (List.length batch)).
Proof.
  induction batch as [|[s1 s2] rest IH]; intros i t.
  - exists [], t. split; reflexivity.
  - change (seq i (List.length ((s1, s2) :: rest))) with (i :: seq (S i) (List.length rest)).
    cbn [worker_loop]. cbv beta iota zeta delta [bind try_except ret].
    destruct (process_comparison_pair env s1 s2 None t) as [[r|e] t1];
      destruct (IH (S i) t1) as (rs & t' & Hrun & Hmap); rewrite Hrun;
      [exists ((r, worker_id * 1000 + Z.of_nat i) :: rs), t'
      |exists ((worker_error_result e, worker_id * 1000 + Z.of_nat i) :: rs), t'];
      (split; [cbn [fst snd filter]; destruct (Nat.eqb (Nat.modulo i 5) 4); reflexivity
              |cbn [map snd]; rewrite Hmap; reflexivity]).
Qed.

(** worker_batch_process always reaches [result_queue.put(results)] with one
    result per pair of the batch, in batch order: the result of pair [i]
    carries ["original_index"] [worker_id * 1000 + i], and [gc.collect()]
    runs after exactly the indices [i] with [i mod 5 = 4]. *)
Theorem worker_batch_process_results (env : Env) (worker_id : Z)
  (batch : list (string * string)) (t : Trace) :
  exists results t',
    worker_batch_process env worker_id batch t =
      (Ret (results, filter (fun i => Nat.eqb (Nat.modulo i 5) 4) (seq 0 (List.length batch))), t') /\
    map snd results = map (fun i => worker_id * 1000 + Z.of_nat i) (seq 0 (List.length batch)).
Proof.
  destruct (worker_loop_run env worker_id batch 0 t) as (rs & t' & Hrun & Hmap).
  exists rs, t'. unfold worker_batch_process, try_except. rewrite Hrun. auto.
Qed.

(** Two different workers never tag two results with the same
    ["original_index"] as long as both batches have at most 1000 pairs. *)
Theorem worker_original_indices_disjoint (env : Env) (w1 w2 : Z)
  (b1 b2 : list (string * string)) (t1 t2 : Trace)
  (Hw : w1 <> w2) (H1 : (List.length b1 <= 1000)%nat) (H2 : (List.length b2 <= 1000)%nat) :
  exists r1 g1 t1' r2 g2 t2',
    worker_batch_process env w1 b1 t1 = (Ret (r1, g1), t1') /\
    worker_batch_process env w2 b2 t2 = (Ret (r2, g2), t2') /\
    forall x, In x (map snd r1) -> ~ In x (map snd r2).
Proof.
  destruct (worker_loop_run env w1 b1 0 t1) as (rs1 & u1 & Hrun1 & Hmap1).
  destruct (worker_loop_run env w2 b2 0 t2) as (rs2 & u2 & Hrun2 & Hmap2).
  do 6 eexists. unfold worker_batch_process, try_except.
  rewrite Hrun1, Hrun2. split; [reflexivity|]. split; [reflexivity|].
  intros x I1 I2. rewrite Hmap1 in I1. rewrite Hmap2 in I2.
  apply in_map_iff in I1 as (i & <- & Hi). apply in_map_iff in I2 as (j & Hij & Hj).
  apply in_seq in Hi. apply in_seq in Hj.
  apply Hw. nia.
Qed.

Lemma worker_original_indices_disjoint_witness :
  (0 <> 1 /\ (List.length [(damage_report, "Gut.")] <= 1000)%nat /\
   (List.length [("Gut.", damage_report)] <= 1000)%nat) /\
  exists r1 g1 t1' r2 g2 t2',
    worker_batch_process (toy_env no_spacy) 0 [(damage_report, "Gut.")] [] = (Ret (r1, g1), t1') /\
    worker_batch_process (toy_env no_spacy) 1 [("Gut.", damage_report)] [] = (Ret (r2, g2), t2') /\
    forall x, In x (map snd r1) -> ~ In x (map snd r2).
Proof.
  split; [split; [discriminate|split; cbn; lia]|].
  apply (worker_original_indices_disjoint (toy_env no_spacy) 0 1
           [(damage_report, "Gut.")] [("Gut.", damage_report)] [] []);
    [discriminate|cbn; lia|cbn; lia].
Defined.

(** The bound matters: when worker [w] gets more than 1000 pairs and worker
    [w + 1] gets at least one, both tag a result with ["original_index"]
    [(w + 1) * 1000]. *)
Theorem worker_original_indices_collide (env : Env) (w : Z)
  (b1 b2 : list (string * string)) (t1 t2 : Trace)
  (H1 : (1000 < List.length b1)%nat) (H2 : (0 < List.length b2)%nat) :
  exists r1 g1 t1' r2 g2 t2',
    worker_batch_process env w b1 t1 = (Ret (r1, g1), t1') /\
    worker_batch_process env (w + 1) b2 t2 = (Ret (r2, g2), t2') /\
    In ((w + 1) * 1000) (map snd r1) /\ In ((w + 1) * 1000) (map snd r2).
Proof.
  destruct (worker_loop_run env w b1 0 t1) as (rs1 & u1 & Hrun1 & Hmap1).
  destruct (worker_loop_run env (w + 1) b2 0 t2) as (rs2 & u2 & Hrun2 & Hmap2).
  do 6 eexists. unfold worker_batch_process, try_except.
  rewrite Hrun1, Hrun2. split; [reflexivity|]. split; [reflexivity|].
  rewrite Hmap1, Hmap2. split; apply in_map_iff.
  - exists 1000%nat. split; [lia|]. apply in_seq. lia.
  - exists 0%nat. split; [lia|]. apply in_seq. lia.
Qed.

Lemma worker_original_indices_collide_witness :
  ((1000 < List.length (repeat (damage_report, "Gut.") 1001))%nat /\
   (0 < List.length [("Gut.", damage_report)])%nat) /\
  exists r1 g1 t1' r2 g2 t2',
    worker_batch_process (toy_env no_spacy) 0 (repeat (damage_report, "Gut.") 1001) [] =
      (Ret (r1, g1), t1') /\
    worker_batch_process (toy_env no_spacy) (0 + 1) [("Gut.", damage_report)] [] =
      (Ret (r2, g2), t2') /\
    In ((0 + 1) * 1000) (map snd r1) /\ In ((0 + 1) * 1000) (map snd r2).
Proof.
  split; [rewrite repeat_length; cbn; lia|].
  apply (worker_original_indices_collide (toy_env no_spacy) 0
           (repeat (damage_report, "Gut.") 1001) [("Gut.", damage_report)] [] []);
    [rewrite repeat_length; lia|cbn; lia].
Defined.

End WorkerPoolFacts.

(** ** Keyword embedding dictionaries *)

Module DictFacts.

Import Text Keywords Scoring Pairs Compare Props ListFacts UniqueFacts.

Lemma dict_set_existsb {A} (k : string) (d : list (string * A)) :
  existsb (fun '(k', _) => String.eqb k k') d = mem k (map fst d).
Proof.
  induction d as [|[k' v'] d IH]; simpl; [reflexivity|].
  unfold mem in *. simpl. rewrite IH. reflexivity.
Qed.

Lemma dict_set_keys {A} (k : string) (v : A) (d : list (string * A)) :
  map fst (dict_set k v d) =
    (if mem k (map fst d) then map fst d else map fst d ++ [k])%list.
Proof.
  unfold dict_set. rewrite dict_set_existsb.
  destruct (mem k (map fst d)); [|rewrite map_app; reflexivity].
  rewrite map_map. apply map_ext. intros [k' v']. destruct (String.eqb k k'); reflexivity.
Qed.

Lemma dict_get_set_same (k : string) (v : vec) (d : list (string * vec)) :
  dict_get k (dict_set k v d) = v.
Proof.
  induction d as [|[k' v'] d IH].
  - unfold dict_get, dict_set. simpl. rewrite String.eqb_refl. reflexivity.
  - unfold dict_set in *. cbn [existsb map].
    destruct (String.eqb k k') eqn:E; cbn [orb].
    + unfold dict_get. cbn [find]. rewrite E. reflexivity.
    + destruct (existsb (fun '(k'0, _) => String.eqb k k'0) d);
        unfold dict_get in *; cbn [find app]; rewrite E; exact IH.
Qed.

Lemma dict_get_set_other (k k' : string) (v : vec) (d : list (string * vec)) :
  k <> k' -> dict_get k (dict_set k' v d) = dict_get k d.
Proof.
  intros Hne. induction d as [|[k0 v0] d IH].
  - unfold dict_get, dict_set. simpl.
    destruct (String.eqb_spec k k'); [contradiction|reflexivity].
  - unfold dict_set in *. cbn [existsb map].
    destruct (String.eqb k' k0) eqn:E; cbn [orb].
    + apply String.eqb_eq in E. subst k0. unfold dict_get. cbn [find].
      destruct (String.eqb_spec k k'); [contradiction|].
      fold (dict_get k (map (fun '(k'0, v') => if String.eqb k' k'0 then (k'0, v) else (k'0, v')) d)).
      fold (dict_get k d).
      clear IH. induction d as [|[k1 v1] d IH1]; [reflexivity|].
      unfold dict_get in *. cbn [map find].
      destruct (String.eqb k' k1) eqn:E1; cbn [find];
        destruct (String.eqb k k1) eqn:E2; try reflexivity; try exact IH1.
      apply String.eqb_eq in E1. apply String.eqb_eq in E2. congruence.
    + destruct (existsb (fun '(k'0, _) => String.eqb k' k'0) d);
        unfold dict_get in *; cbn [find app]; destruct (String.eqb k k0); try reflexivity; exact IH.
Qed.

Lemma keyword_embeddings_trace (env : Env) (keywords : list string) :
  forall (d : list (string * vec)) (t : Trace),
    keyword_embeddings env keywords d t =
      (Ret (embed_all env keywords d), t ++ map (fun k => [k]) keywords).
Proof.
  induction keywords as [|k rest IH]; intros d t.
  - rewrite app_nil_r. reflexivity.
  - cbn [keyword_embeddings]. unfold bind at 1, encode. cbn [map nth].
    rewrite IH. rewrite <- app_assoc. reflexivity.
Qed.

Lemma embed_all_keys (env : Env) (keywords : list string) :
  forall d, map fst (embed_all env keywords d) = (map fst d ++ dedup_aux (map fst d) keywords)%list.
Proof.
  unfold embed_all.
  induction keywords as [|k rest IH]; intros d; cbn [fold_left dedup_aux].
  - rewrite app_nil_r. reflexivity.
  - rewrite IH, dict_set_keys. destruct (mem k (map fst d)); [reflexivity|].
    rewrite <- app_assoc. cbn [app]. f_equal. f_equal.
    apply dedup_aux_seen_ext. intros x. rewrite in_app_iff. simpl. tauto.
Qed.

Lemma embed_all_other (env : Env) (keywords : list string) (k : string) :
  ~ In k keywords -> forall d, dict_get k (embed_all env keywords d) = dict_get k d.
Proof.
  unfold embed_all.
  induction keywords as [|k0 rest IH]; intros Hk d; [reflexivity|].
  cbn [fold_left]. rewrite IH by (intros H; apply Hk; right; exact H).
  apply dict_get_set_other. intros ->. apply Hk. left. reflexivity.
Qed.

Lemma embed_all_lookup (env : Env) (keywords : list string) (k : string) :
  In k keywords -> forall d, dict_get k (embed_all env keywords d) = encode_one env k.
Proof.
  induction keywords as [|k0 rest IH]; intros Hk d; [contradiction|].
  destruct (in_dec string_dec k rest) as [Hr|Hr].
  - unfold embed_all in *. cbn [fold_left]. apply IH. exact Hr.
  - destruct Hk as [->|Hk]; [|contradiction].
    unfold embed_all. cbn [fold_left]. fold (embed_all env rest (dict_set k (encode_one env k) d)).
    rewrite embed_all_other by exact Hr. apply dict_get_set_same.
Qed.

(** extract_semantic_keywords encodes each keyword of extract_keywords_spacy
    in its own encoder call, in order, and returns a dictionary whose keys
    are the distinct keywords (first occurrences, in order) and whose entry
    for each keyword is that keyword's embedding.  When keyword extraction
    raises, it returns no keywords and an empty dictionary without calling
    the encoder. *)
Theorem extract_semantic_keywords_embeds (env : Env) (text language : string) (t : Trace) :
  match extract_keywords_spacy (nlp env) text language with
  | Ret keywords =>
      exists embeddings,
        extract_semantic_keywords env text language t =
          (Ret (keywords, embeddings), t ++ map (fun k => [k]) keywords) /\
        map fst embeddings = dedup keywords /\
        forall k, In k keywords -> dict_get k embeddings = encode_one env k
  | Raise _ => extract_semantic_keywords env text language t = (Ret ([], []), t)
  end.
Proof.
  unfold extract_semantic_keywords, try_except, bind at 1, lift.
  destruct (extract_keywords_spacy (nlp env) text language) as [keywords|e]; [|reflexivity].
  exists (embed_all env keywords []).
  unfold bind. rewrite keyword_embeddings_trace. split; [reflexivity|]. split.
  - rewrite embed_all_keys. reflexivity.
  - intros k Hk. apply embed_all_lookup. exact Hk.
Qed.

End DictFacts.

(** ** The guards of get_domain_similarity and compare_statements *)

Module GuardFacts.

Import Text Keywords Scoring Pairs Compare Props MonadFacts RunFacts ListFacts DictFacts.




Lemma extract_semantic_keywords_keywords (env : Env) (text : string) (t : Trace) :
  exists embeddings t',
    extract_semantic_keywords env text (detect_language env text) t =
      (Ret (semantic_keywords_of env text, embeddings), t').
Proof.
  unfold extract_semantic_keywords, semantic_keywords_of, try_except, bind at 1, lift.
  destruct (extract_keywords_spacy (nlp env) text (detect_language env text)) as [keywords|e].
  - unfold bind. rewrite keyword_embeddings_trace. do 2 eexists. reflexivity.
  - do 2 eexists. reflexivity.
Qed.

(** compare_statements answers with the error of its ZeroDivisionError
    exactly when neither statement yields a keyword (in particular when spaCy is not
    installed); otherwise it returns its result with the keywords of both
    statements and a keyword overlap percent in [0,100]. *)
Theorem compare_statements_keyword_guard (env : Env) (statement1 statement2 : string) (t : Trace) :
  (semantic_keywords_of env statement1 = [] -> semantic_keywords_of env statement2 = [] ->
   fst (compare_statements env statement1 statement2 t) = Ret (inr "ZeroDivisionError: division by zero")) /\
  (semantic_keywords_of env statement1 <> [] \/ semantic_keywords_of env statement2 <> [] ->
   exists r, fst (compare_statements env statement1 statement2 t) = Ret (inl r) /\
     cs_keywords1 r = semantic_keywords_of env statement1 /\
     cs_keywords2 r = semantic_keywords_of env statement2 /\
     0 <= keyword_overlap_percent r <= 100).
Proof.
  unfold compare_statements, try_except.
  erewrite bind_ret by apply get_similarity_score_run.
  destruct (get_alternative_similarity_scores_run env statement1 statement2 (t ++ [[statement1; statement2]]))
    as (d & _ & _ & Hg).
  erewrite bind_ret by exact Hg.
  unfold bind.
  destruct (extract_semantic_keywords_keywords env statement1
              ((t ++ [[statement1; statement2]]) ++ [[statement1; statement2]; [statement1; statement2]]
               ++ snd (get_domain_similarity env statement1 statement2 [])))
    as (e1 & t1 & E1).
  rewrite E1.
  destruct (extract_semantic_keywords_keywords env statement2 t1) as (e2 & t2 & E2).
  rewrite E2. cbn [fst snd].
  split.
  - intros K1 K2. rewrite K1, K2. reflexivity.
  - intros K.
    assert (Hd : (Z.max (Z.of_nat (List.length (semantic_keywords_of env statement1)))
                        (Z.of_nat (List.length (semantic_keywords_of env statement2))) =? 0) = false).
    { apply Z.eqb_neq. destruct K as [K|K];
        destruct (semantic_keywords_of env statement1); destruct (semantic_keywords_of env statement2);
        try contradiction; cbn [List.length]; lia. }
    rewrite Hd. cbv beta iota zeta delta [ret fst]. eexists. split; [reflexivity|].
    cbn [cs_keywords1 cs_keywords2 keyword_overlap_percent]. split; [reflexivity|]. split; [reflexivity|].
    split; [|lia].
    apply Z.min_glb; [lia|]. apply Facts.py_int_ge.
    apply Qmult_le_0_compat; [|discriminate].
    apply Qle_shift_div_l.
    2:{ rewrite Qmult_0_l. change 0%Q with (inject_Z 0). rewrite <- Zle_Qle. lia. }
    change 0%Q with (inject_Z 0). rewrite <- Zlt_Qlt. destruct K as [K|K];
      destruct (semantic_keywords_of env statement1); destruct (semantic_keywords_of env statement2);
      try contradiction; cbn [List.length]; lia.
Qed.

End GuardFacts.

(** ** Batched pre-computation of embeddings and the batch comparison *)

Module PrecomputeFacts.

Import Text Keywords Scoring Pairs Compare Props MonadFacts ListFacts DictFacts.

Lemma chunks_spec (fuel : nat) (l : list string) :
  (List.length l <= fuel)%nat ->
  List.concat (chunks fuel 32 l) = l /\
  (forall b, In b (chunks fuel 32 l) -> b <> [] /\ (List.length b <= 32)%nat).
Proof.
  revert l. induction fuel as [|fuel IH]; intros l Hl.
  - destruct l; [|cbn in Hl; lia]. split; [reflexivity|intros b []].
  - destruct l as [|x r]; [split; [reflexivity|intros b []]|].
    cbn [chunks]. destruct (IH (skipn 32 (x :: r))) as [Hc Hb].
    { rewrite length_skipn. cbn [List.length] in *. lia. }
    split.
    + cbn [List.concat]. rewrite Hc. apply firstn_skipn.
    + intros b [<-|Hin]; [|apply Hb; exact Hin].
      split; [discriminate|]. rewrite length_firstn. lia.
Qed.

Lemma combine_map_self (f : string -> vec) (b : list string) :
  combine b (map f b) = map (fun s => (s, f s)) b.
Proof. induction b as [|x b IH]; simpl; [reflexivity|]. rewrite IH. reflexivity. Qed.

Lemma encode_batches_run (env : Env) (batches : list (list string)) :
  forall t,
    mapM (fun batch => es <- encode env batch;; ret (combine batch es)) batches t =
      (Ret (map (map (fun s => (s, encode_one env s))) batches), t ++ batches).
Proof.
  induction batches as [|b batches IH]; intros t.
  - rewrite app_nil_r. reflexivity.
  - cbn [mapM]. unfold bind at 1. unfold bind at 1. unfold encode at 1. unfold ret at 1.
    unfold bind at 1. rewrite IH. unfold ret. rewrite combine_map_self, <- app_assoc. reflexivity.
Qed.

Lemma fold_dict_set_map (env : Env) (l : list string) :
  forall d,
    fold_left (fun d '(s, e) => dict_set s e d) (map (fun s => (s, encode_one env s)) l) d =
      embed_all env l d.
Proof.
  unfold embed_all. induction l as [|x l IH]; intros d; [reflexivity|].
  cbn [map fold_left]. apply IH.
Qed.

Lemma precompute_embeddings_eq (env : Env) (all_statements : list string) (t : Trace) :
  precompute_embeddings env all_statements t =
    (Ret (embed_all env all_statements []),
     t ++ chunks (List.length all_statements) 32 all_statements).
Proof.
  destruct (chunks_spec (List.length all_statements) all_statements (le_n _)) as [Hc _].
  unfold precompute_embeddings. unfold bind at 1. rewrite encode_batches_run.
  unfold ret. rewrite <- concat_map, Hc, fold_dict_set_map. reflexivity.
Qed.

(** precompute_embeddings (the loop of compare_all_statements over slices
    of 32 statements) calls the encoder once per slice; the slices are
    non-empty, hold at most 32 statements and together are the statement
    list in order.  The dictionary it builds has the distinct statements as
    keys and maps each statement to its own embedding. *)
Theorem precompute_embeddings_lookup (env : Env) (all_statements : list string) (t : Trace) :
  exists batches statement_embeddings,
    precompute_embeddings env all_statements t = (Ret statement_embeddings, t ++ batches) /\
    List.concat batches = all_statements /\
    (forall b, In b batches -> b <> [] /\ (List.length b <= 32)%nat) /\
    map fst statement_embeddings = dedup all_statements /\
    (forall s, In s all_statements -> dict_get s statement_embeddings = encode_one env s).
Proof.
  destruct (chunks_spec (List.length all_statements) all_statements (le_n _)) as [Hc Hb].
  exists (chunks (List.length all_statements) 32 all_statements),
         (embed_all env all_statements []).
  split; [|split; [exact Hc|split; [exact Hb|split]]].
  - apply precompute_embeddings_eq.
  - rewrite embed_all_keys. reflexivity.
  - intros s Hs. apply embed_all_lookup. exact Hs.
Qed.

Lemma process_comparison_pair_ret (env : Env) (s1 s2 : string) pre (t : Trace) :
  exists r t', process_comparison_pair env s1 s2 pre t = (Ret r, t').
Proof.
  unfold process_comparison_pair, try_except. cbv beta.
  match goal with |- context [match ?m t with _ => _ end] => destruct (m t) as [[r|e] t'] end;
    unfold ret; eauto.
Qed.



End PrecomputeFacts.

(** ** Tokens and the sequential batch *)

Module TokenFacts.

Import Text Props.







End TokenFacts.

Module SequentialFacts.

Import Scoring Pairs Compare Pool MonadFacts PrecomputeFacts.

Lemma sequential_loop_mapM (env : Env) (statement_pairs : list (string * string)) :
  forall i t,
    sequential_loop env i statement_pairs t =
      (rs <- mapM (fun '(s1, s2) => process_comparison_pair env s1 s2 None) statement_pairs;;
       ret (rs, filter (fun j => Nat.eqb (Nat.modulo j 20) 19)
                       (seq i (List.length statement_pairs)))) t.
Proof.
  induction statement_pairs as [|[s1 s2] rest IH]; intros i t; [reflexivity|].
  change (seq i (List.length ((s1, s2) :: rest))) with (i :: seq (S i) (List.length rest)).
  destruct (process_comparison_pair_ret env s1 s2 None t) as (r & t1 & E).
  cbn [sequential_loop mapM].
  erewrite bind_ret.
  2:{ unfold try_except. erewrite bind_ret by exact E. reflexivity. }
  unfold bind at 1. cbv beta. rewrite IH. unfold bind, ret. rewrite E.
  destruct (mapM (fun '(s1, s2) => process_comparison_pair env s1 s2 None) rest t1)
    as [[ys|e] t2]; [|reflexivity].
  cbn [fst snd filter]. destruct (Nat.eqb (Nat.modulo i 20) 19); reflexivity.
Qed.

(** process_batch_sequential returns the results of process_comparison_pair
    on the pairs, in order (its error placeholder is never produced, since
    process_comparison_pair catches its own failures), and frees memory
    after exactly the indices [i] with [i mod 20 = 19]. *)
Theorem process_batch_sequential_results (p : PoolEnv)
  (statement_pairs : list (string * string)) (t : Trace) :
  process_batch_sequential p statement_pairs t =
    (rs <- mapM (fun '(s1, s2) => process_comparison_pair (scoring p) s1 s2 None) statement_pairs;;
     ret (rs, filter (fun i => Nat.eqb (Nat.modulo i 20) 19)
                     (seq 0 (List.length statement_pairs)))) t.
Proof. apply sequential_loop_mapM. Qed.

End SequentialFacts.

(** ** The shape of the keyword lists *)

Module KeywordShapeFacts.

Import Text Keywords Props ListFacts KeywordFacts TokenFacts.





End KeywordShapeFacts.

(** ** Encoder calls of the alternative scores, and pairs without spaCy *)

Module AltFacts.

Import Keywords Scoring Pairs Compare Props MonadFacts RunFacts Examples.

Lemma get_domain_similarity_calls (env : Env) (text1 text2 : string) :
  snd (get_domain_similarity env text1 text2 []) = [] \/
  snd (get_domain_similarity env text1 text2 []) =
    [firstn 20 (dedup (content_words (nlp env) text1));
     firstn 20 (dedup (content_words (nlp env) text2))].
Proof.
  unfold get_domain_similarity.
  destruct (firstn 20 (dedup (content_words (nlp env) text1)));
    [left; reflexivity|].
  destruct (firstn 20 (dedup (content_words (nlp env) text2)));
    [left; reflexivity|right; reflexivity].
Qed.

(** get_alternative_similarity_scores hands the pair [[sentence1;
    sentence2]] to the encoder twice (once directly, once through
    get_similarity_score), then either nothing more or the two lists of at
    most 20 distinct content words of get_domain_similarity. *)
Theorem get_alternative_similarity_scores_encodes (env : Env) (s1 s2 : string) (t : Trace) :
  exists scores,
    get_alternative_similarity_scores env s1 s2 t = (Ret scores, t ++ [[s1; s2]; [s1; s2]]) \/
    get_alternative_similarity_scores env s1 s2 t =
      (Ret scores, t ++ [[s1; s2]; [s1; s2];
                         firstn 20 (dedup (content_words (nlp env) s1));
                         firstn 20 (dedup (content_words (nlp env) s2))]).
Proof.
  destruct (get_alternative_similarity_scores_run env s1 s2 t) as (d & _ & _ & Hg).
  exists (alt_scores_of env s1 s2 d). rewrite Hg.
  destruct (get_domain_similarity_calls env s1 s2) as [E|E]; rewrite E;
    [left; rewrite app_nil_r|right]; reflexivity.
Qed.

(** When spaCy is not installed, process_comparison_pair returns its error
    placeholder (zero scores, interpretation "error") for every pair, after
    the scores were computed: extract_keywords_spacy raises inside its
    [try]. *)
Theorem process_comparison_pair_without_spacy (env : Env) (s1 s2 : string) pre (t : Trace)
  (H : spacy_installed (nlp env) = false) :
  fst (process_comparison_pair env s1 s2 pre t) =
    Ret (pair_error_result "ModuleNotFoundError: No module named 'spacy'").
Proof.
  destruct (get_alternative_similarity_scores_run env s1 s2 t) as (d & _ & _ & Hg).
  unfold process_comparison_pair, try_except. cbv beta.
  erewrite bind_ret by exact Hg.
  unfold bind at 1, lift, extract_keywords_spacy. rewrite H. reflexivity.
Qed.

Lemma process_comparison_pair_without_spacy_witness :
  spacy_installed (nlp (toy_env no_spacy)) = false /\
  fst (process_comparison_pair (toy_env no_spacy) damage_report "Gut." None []) =
    Ret (pair_error_result "ModuleNotFoundError: No module named 'spacy'").
Proof.
  split; [reflexivity|].
  apply process_comparison_pair_without_spacy. reflexivity.
Defined.

End AltFacts.
